(** * Endpoint pool, scoring and selection of [services/proxy_rotator.py]

    A shallow embedding of the proxy rotator: the endpoint record, the
    weighted score, the selection with its fallback, the multi-hop chain
    builder and the health probe with its exponential smoothing.

    Numbers.  Python's [float] is modelled by exact rational arithmetic
    ([Q]); rounding and overflow of binary64 are outside the model.  The
    one special value the program produces, [float('inf')], is kept as an
    explicit constructor of [xfloat], the type of [latency] values.
    [success_rate] and every score stay finite and are plain [Q].

    Objects.  [ResidentialProxy] instances are shared between
    [proxy_pool] and the per-state buckets and are mutated in place, so
    both containers hold references into one object store. *)

From Stdlib Require Import QArith Qminmax Lqa ZArith List String Ascii Bool Lia.
From Stdlib Require Import Permutation.
Import ListNotations.

Local Open Scope Q_scope.

(** ** Floating point values with an infinity *)

Module Float.

Inductive xfloat : Type :=
| Finite (q : Q)
| PosInf.

(** [float('inf')] *)
Definition inf : xfloat := PosInf.

(** [x * c] for a positive literal [c] (0.7 and 0.3 in the source):
    [inf * c] is [inf]. *)
Definition mul_pos (x : xfloat) (c : Q) : xfloat :=
  match x with
  | Finite q => Finite (q * c)
  | PosInf => PosInf
  end.

(** [x + y]: a sum with an infinite summand is infinite. *)
Definition add (x y : xfloat) : xfloat :=
  match x, y with
  | Finite a, Finite b => Finite (a + b)
  | _, _ => PosInf
  end.

(** [x <= y] *)
Definition leb (x y : xfloat) : bool :=
  match x, y with
  | Finite a, Finite b => Qle_bool a b
  | Finite _, PosInf => true
  | PosInf, Finite _ => false
  | PosInf, PosInf => true
  end.

(** [x < y] *)
Definition ltb (x y : xfloat) : bool := negb (leb y x).

(** Equality of values: [Qeq] on finite ones. *)
Definition eqv (x y : xfloat) : Prop :=
  match x, y with
  | Finite a, Finite b => a == b
  | PosInf, PosInf => True
  | _, _ => False
  end.

End Float.

Import Float.

(** [a < b] on rationals, as a boolean. *)
Definition Qlt_bool (a b : Q) : bool := negb (Qle_bool b a).

(** ** Enumerations *)

Inductive ProxyHealth : Type :=
| EXCELLENT | GOOD | DEGRADED | POOR | DEAD.

(** [ProxyHealth.X.value] *)
Definition value (h : ProxyHealth) : Z :=
  match h with
  | EXCELLENT => 4
  | GOOD => 3
  | DEGRADED => 2
  | POOR => 1
  | DEAD => 0
  end%Z.

Inductive SchoolBlockerType : Type :=
| IBOSS | SECURELY | GOGUARDIAN | LANSCHOOL | LIGHTSPEED
| BARKLY | SMOOTHWALL | FORTIGUARD | SONICWALL | PALOALTO.

(** ** The endpoint record *)

Record ResidentialProxy : Type := mkProxy {
  ip : string;
  port : Z;
  state : string;
  city : string;
  isp : string;
  asn : Z;
  latency : xfloat;
  success_rate : Q;
  last_used : Z;            (* a [datetime], as a timestamp *)
  health : ProxyHealth;
  protocol : string;
  username : option string;
  password : option string
}.

Definition set_last_used (p : ResidentialProxy) (t : Z) : ResidentialProxy :=
  mkProxy (ip p) (port p) (state p) (city p) (isp p) (asn p)
          (latency p) (success_rate p) t (health p)
          (protocol p) (username p) (password p).

Definition set_latency (p : ResidentialProxy) (l : xfloat) : ResidentialProxy :=
  mkProxy (ip p) (port p) (state p) (city p) (isp p) (asn p)
          l (success_rate p) (last_used p) (health p)
          (protocol p) (username p) (password p).

Definition set_success_rate (p : ResidentialProxy) (s : Q) : ResidentialProxy :=
  mkProxy (ip p) (port p) (state p) (city p) (isp p) (asn p)
          (latency p) s (last_used p) (health p)
          (protocol p) (username p) (password p).

Definition set_health (p : ResidentialProxy) (h : ProxyHealth) : ResidentialProxy :=
  mkProxy (ip p) (port p) (state p) (city p) (isp p) (asn p)
          (latency p) (success_rate p) (last_used p) h
          (protocol p) (username p) (password p).

(** ** Scoring: [ResidentialProxy.score] *)

Record optimization : Type := mkOpt {
  preferred_isps : list string;
  avoid_isps : list string
}.

(** The dict [blocker_optimizations]: four keys, the other tags absent. *)
Definition blocker_optimizations (b : SchoolBlockerType) : option optimization :=
  match b with
  | IBOSS => Some (mkOpt
      ["Comcast"; "AT&T"; "Verizon"; "Charter"; "Cox"]
      ["Google Fiber"; "CenturyLink"])
  | GOGUARDIAN => Some (mkOpt
      ["Spectrum"; "Xfinity"; "Optimum"; "Mediacom"; "Frontier"]
      ["Verizon Business"; "AT&T Business"])
  | SECURELY => Some (mkOpt
      ["Cox"; "Suddenlink"; "Cable One"; "WOW!"; "RCN"]
      ["CenturyLink"; "Frontier Communications"])
  | LANSCHOOL => Some (mkOpt
      ["AT&T"; "Verizon"; "CenturyLink"; "Windstream"; "Frontier"]
      ["Comcast Business"; "Charter Business"])
  | _ => None
  end%string.

(** [s in l] for a list of strings *)
Definition str_in (s : string) (l : list string) : bool :=
  existsb (String.eqb s) l.

(** [optimization.get('preferred_isps', [])] after
    [blocker_optimizations.get(blocker_type, {})] *)
Definition get_preferred (o : option optimization) : list string :=
  match o with Some x => preferred_isps x | None => [] end.

Definition get_avoid (o : option optimization) : list string :=
  match o with Some x => avoid_isps x | None => [] end.

Definition _calculate_blocker_score
    (self : ResidentialProxy) (blocker_type : option SchoolBlockerType) : Q :=
  match blocker_type with
  | None => 0.5
  | Some b =>
      let optimization := blocker_optimizations b in
      let preferred_isps := get_preferred optimization in
      let avoid_isps := get_avoid optimization in
      if str_in (isp self) preferred_isps then 1.0
      else if str_in (isp self) avoid_isps then 0.0
      else 0.5
  end.

(** [max(0, 1 - (self.latency / 5000))].  For an infinite latency the
    quotient is [inf], the difference [-inf], and [max(0, -inf)] is 0.
    [Qmax 0 x] is [x] when [0 < x] and [0] otherwise, as Python's [max]. *)
Definition latency_score (l : xfloat) : Q :=
  match l with
  | Finite q => Qmax 0 (1 - (q / 5000))
  | PosInf => 0
  end.

Definition score (self : ResidentialProxy) (blocker_type : option SchoolBlockerType) : Q :=
  let latency_weight := 0.3 in
  let success_weight := 0.4 in
  let health_weight := 0.2 in
  let blocker_weight := 0.1 in
  let latency_score := latency_score (latency self) in
  let blocker_score := _calculate_blocker_score self blocker_type in
  latency_score * latency_weight +
  success_rate self * success_weight +
  inject_Z (value (health self)) * 0.25 * health_weight +
  blocker_score * blocker_weight.

(** ** Small Python library functions *)

(** [str.lower()] on ASCII text. *)
Definition lower_ascii (c : ascii) : ascii :=
  let n := nat_of_ascii c in
  if (65 <=? n)%nat && (n <=? 90)%nat then ascii_of_nat (n + 32) else c.

Fixpoint lower (s : string) : string :=
  match s with
  | EmptyString => EmptyString
  | String c s' => String (lower_ascii c) (lower s')
  end.

(** Truth value of a string: the empty string is falsy. *)
Definition truthy (s : string) : bool :=
  match s with EmptyString => false | _ => true end.

(** A [dict] with string keys, in insertion order. *)
Definition dict (V : Type) : Type := list (string * V).

Fixpoint dict_get {V : Type} (k : string) (d : dict V) : option V :=
  match d with
  | [] => None
  | (k', v) :: d' => if String.eqb k k' then Some v else dict_get k d'
  end.

(** [list(d.keys())] *)
Definition keys {V : Type} (d : dict V) : list string := map fst d.

(** [list.sort(reverse=True, key=...)]: a stable sort into descending key
    order, elements with equal keys keeping their original order.  [x]
    stands before every element of [l] in the original list, so it is
    placed in front of the first element whose key is not larger. *)
Section Sort.
Context {A : Type} (key : A -> Q).

Fixpoint insert_desc (x : A) (l : list A) : list A :=
  match l with
  | [] => [x]
  | y :: l' =>
      if Qlt_bool (key x) (key y) then y :: insert_desc x l'
      else x :: y :: l'
  end.

Fixpoint sort_desc (l : list A) : list A :=
  match l with
  | [] => []
  | x :: l' => insert_desc x (sort_desc l')
  end.

(** Descending order of a list: every element is at least as large as
    all the later ones. *)
Fixpoint descending (l : list A) : Prop :=
  match l with
  | [] => True
  | x :: l' => Forall (fun y => key y <= key x) l' /\ descending l'
  end.
End Sort.

(** Exceptions raised by the rotator. *)
Inductive exn : Type :=
| NoViableProxies    (* Exception("No viable proxies available") *)
| IndexError.        (* indexing or choosing from an empty sequence *)

Inductive result (A : Type) : Type :=
| Ok (a : A)
| Raise (e : exn).
Arguments Ok {A} a.
Arguments Raise {A} e.

Definition bind {A B : Type} (m : result A) (f : A -> result B) : result B :=
  match m with
  | Ok a => f a
  | Raise e => Raise e
  end.

Notation "x <- m ;; k" := (bind m (fun x => k))
  (at level 61, m at next level, right associativity).

(** [random.choice(seq)]: the draw [r] stands for the generator's output;
    every element of a non-empty [seq] is chosen by some draw. *)
Definition choice {A : Type} (r : nat) (seq : list A) : result A :=
  match seq with
  | [] => Raise IndexError
  | x :: _ => Ok (nth (r mod List.length seq) seq x)
  end.

(** ** The rotator and its object store *)

Definition ref : Type := nat.

Record AdvancedProxyRotator : Type := mkRotator {
  objects : ref -> ResidentialProxy;        (* the [ResidentialProxy] instances *)
  proxies_by_state : dict (list ref);
  proxy_pool : list ref;
  session : bool                            (* [self.session] is set *)
}.

(** In-place update of the object behind a reference. *)
Definition store (objs : ref -> ResidentialProxy) (r : ref) (p : ResidentialProxy)
  : ref -> ResidentialProxy :=
  fun r' => if Nat.eqb r' r then p else objs r'.

Definition with_objects (self : AdvancedProxyRotator) (objs : ref -> ResidentialProxy)
  : AdvancedProxyRotator :=
  mkRotator objs (proxies_by_state self) (proxy_pool self) (session self).

(** [p.health.value >= ProxyHealth.DEGRADED.value] *)
Definition healthy (p : ResidentialProxy) : bool :=
  (value DEGRADED <=? value (health p))%Z.

(** ** Selection: [get_optimal_proxy] *)

Definition candidates (self : AdvancedProxyRotator) (target_state : option string)
  : list ref :=
  match target_state with
  | Some s =>
      if truthy s then
        match dict_get (lower s) (proxies_by_state self) with
        | Some bucket => bucket
        | None => proxy_pool self
        end
      else proxy_pool self
  | None => proxy_pool self
  end.

Definition get_optimal_proxy (self : AdvancedProxyRotator)
    (target_state : option string) (blocker_type : option SchoolBlockerType)
    (target_latency : xfloat) (now : Z)
  : result (AdvancedProxyRotator * ref) :=
  let candidate_proxies := candidates self target_state in
  let viable_proxies :=
    filter (fun r => healthy (objects self r)
                     && Float.leb (latency (objects self r)) target_latency)
           candidate_proxies in
  let viable_proxies :=
    match viable_proxies with
    | [] => filter (fun r => healthy (objects self r)) (proxy_pool self)
    | _ => viable_proxies
    end in
  match viable_proxies with
  | [] => Raise NoViableProxies
  | _ =>
      let scored_proxies :=
        map (fun r => (score (objects self r) blocker_type, r)) viable_proxies in
      let scored_proxies := sort_desc fst scored_proxies in
      match scored_proxies with
      | [] => Raise IndexError
      | (_, best_proxy) :: _ =>
          let objs := store (objects self) best_proxy
                            (set_last_used (objects self best_proxy) now) in
          Ok (with_objects self objs, best_proxy)
      end
  end.

(** The default [target_latency=200.0]. *)
Definition default_target_latency : xfloat := Finite 200.

(** ** [get_proxy_for_school_blocker] *)

(** The dict [blocker_latencies]. *)
Definition blocker_latencies (b : SchoolBlockerType) : option xfloat :=
  match b with
  | IBOSS => Some (Finite 150)
  | GOGUARDIAN => Some (Finite 200)
  | SECURELY => Some (Finite 180)
  | LANSCHOOL => Some (Finite 250)
  | _ => None
  end.

Definition get_proxy_for_school_blocker (self : AdvancedProxyRotator)
    (blocker_type : SchoolBlockerType) (target_state : option string) (now : Z)
  : result (AdvancedProxyRotator * ref) :=
  let target_latency :=
    match blocker_latencies blocker_type with
    | Some l => l
    | None => Finite 200
    end in
  get_optimal_proxy self target_state (Some blocker_type) target_latency now.

(** ** Chains: [rotate_proxy_chain] *)

(** [states or list(self.proxies_by_state.keys())]: [None] and the empty
    list both give the registry's keys. *)
Definition states_or_keys (self : AdvancedProxyRotator) (states : option (list string))
  : list string :=
  match states with
  | Some (s :: l) => s :: l
  | _ => keys (proxies_by_state self)
  end.

(** The body of [for i in range(chain_length)], [todo] iterations from
    hop [i] on.  [rnd i] is the draw of [random.choice] and [clock i] the
    time read by the selection at hop [i].  An exception leaves the loop
    with the stamps of the earlier hops written; only the returning runs
    carry the registry on. *)
Fixpoint chain_loop (rnd : nat -> nat) (clock : nat -> Z)
    (states : option (list string)) (blocker_type : option SchoolBlockerType)
    (todo i : nat) (self : AdvancedProxyRotator)
    (chain : list ref) (used_states : list string)
  : result (AdvancedProxyRotator * list ref) :=
  match todo with
  | O => Ok (self, chain)
  | S todo' =>
      let available_states :=
        filter (fun s => negb (str_in s used_states)) (states_or_keys self states) in
      let available_states :=
        match available_states with
        | [] => keys (proxies_by_state self)
        | _ => available_states
        end in
      target_state <- choice (rnd i) available_states ;;
      sel <- get_optimal_proxy self (Some target_state) blocker_type
                               default_target_latency (clock i) ;;
      chain_loop rnd clock states blocker_type todo' (S i) (fst sel)
                 (chain ++ [snd sel]) (target_state :: used_states)
  end.

Definition rotate_proxy_chain (rnd : nat -> nat) (clock : nat -> Z)
    (self : AdvancedProxyRotator) (chain_length : Z)
    (states : option (list string)) (blocker_type : option SchoolBlockerType)
  : result (AdvancedProxyRotator * list ref) :=
  chain_loop rnd clock states blocker_type (Z.to_nat chain_length) 0 self [] [].

(** ** Health probing: [health_check_proxy] *)

(** Outcome of one [session.get]: a response with its status and the
    elapsed time in milliseconds, or an exception (time-out included). *)
Inductive probe_outcome : Type :=
| Response (status : Z) (elapsed_ms : Q)
| Failed.

Definition test_urls : list string :=
  ["http://httpbin.org/ip"; "http://httpbin.org/user-agent";
   "https://www.google.com/gen_204"]%string.

(** One iteration of [for test_url in test_urls], on the pair
    [(success_count, total_latency)]. *)
Definition probe_step (probe : string -> probe_outcome)
    (acc : Z * Q) (test_url : string) : Z * Q :=
  match probe test_url with
  | Response status elapsed_ms =>
      if (status =? 200)%Z || (status =? 204)%Z
      then ((fst acc + 1)%Z, snd acc + elapsed_ms)
      else acc
  | Failed => acc
  end.

(** The statements of [health_check_proxy] after the probe loop, acting on
    the record; returns the new record and the boolean result. *)
Definition apply_probe (proxy : ResidentialProxy) (success_count : Z) (total_latency : Q)
  : ResidentialProxy * bool :=
  let success_rate' :=
    match test_urls with
    | [] => 0
    | _ => inject_Z success_count / inject_Z (Z.of_nat (List.length test_urls))
    end in
  let avg_latency :=
    if (success_count =? 0)%Z then Float.inf
    else Finite (total_latency / inject_Z success_count) in
  let proxy := set_latency proxy
      (Float.add (Float.mul_pos (latency proxy) 0.7) (Float.mul_pos avg_latency 0.3)) in
  let proxy := set_success_rate proxy
      (success_rate proxy * 0.7 + success_rate' * 0.3) in
  let proxy :=
    if Qle_bool 0.9 success_rate' && Float.ltb (latency proxy) (Finite 300)
    then set_health proxy EXCELLENT
    else if Qle_bool 0.7 success_rate' && Float.ltb (latency proxy) (Finite 600)
    then set_health proxy GOOD
    else if Qle_bool 0.5 success_rate'
    then set_health proxy DEGRADED
    else set_health proxy POOR in
  (proxy, Qle_bool 0.5 success_rate').

Definition health_check_proxy (probe : string -> probe_outcome)
    (self : AdvancedProxyRotator) (proxy : ref)
  : AdvancedProxyRotator * bool :=
  let self := mkRotator (objects self) (proxies_by_state self) (proxy_pool self) true in
  let '(success_count, total_latency) :=
    fold_left (probe_step probe) test_urls (0%Z, 0) in
  let '(p, ok) := apply_probe (objects self proxy) success_count total_latency in
  (with_objects self (store (objects self) proxy p), ok).

(** ** The score as the specification words it *)

Module ScoreSpec.

(** The provider sets a policy tag carries (none for a tag without table). *)
Definition preferred (t : SchoolBlockerType) : list string :=
  get_preferred (blocker_optimizations t).
Definition avoided (t : SchoolBlockerType) : list string :=
  get_avoid (blocker_optimizations t).

(** [providerScore]: 1.0 if provider in the preferred set, 0.0 if in the
    avoided set, else 0.5; always 0.5 without a tag. *)
Definition providerScore (provider : string) (tag : option SchoolBlockerType) : Q :=
  match tag with
  | None => 0.5
  | Some t =>
      if in_dec string_dec provider (preferred t) then 1.0
      else if in_dec string_dec provider (avoided t) then 0.0
      else 0.5
  end.

(** [latencyScore = max(0, 1 - latency_ms/5000)], which is 0 in the limit
    of an infinite latency. *)
Definition latencyScore (latency_ms : xfloat) : Q :=
  match latency_ms with
  | Finite l => Qmax 0 (1 - l / 5000)
  | PosInf => 0
  end.

(** [healthScore = health.ordinal / EXCELLENT.ordinal] *)
Definition healthScore (h : ProxyHealth) : Q :=
  inject_Z (value h) / inject_Z (value EXCELLENT).

Definition score_spec (e : ResidentialProxy) (tag : option SchoolBlockerType) : Q :=
  0.30 * latencyScore (latency e) + 0.40 * success_rate e
  + 0.20 * healthScore (health e) + 0.10 * providerScore (isp e) tag.

End ScoreSpec.

(** ** Views on the selection *)

(** The viability filter of [get_optimal_proxy], and its relaxed form. *)
Definition is_viable (self : AdvancedProxyRotator) (target_latency : xfloat) (r : ref) : bool :=
  healthy (objects self r) && Float.leb (latency (objects self r)) target_latency.

Definition is_healthy (self : AdvancedProxyRotator) (r : ref) : bool :=
  healthy (objects self r).

(** The list [viable_proxies] that reaches the scoring step. *)
Definition survivors (self : AdvancedProxyRotator) (target_state : option string)
    (target_latency : xfloat) : list ref :=
  match filter (is_viable self target_latency) (candidates self target_state) with
  | [] => filter (is_healthy self) (proxy_pool self)
  | v => v
  end.

(** [best_proxy.last_used = datetime.now()] *)
Definition mark_used (self : AdvancedProxyRotator) (r : ref) (now : Z) : AdvancedProxyRotator :=
  with_objects self (store (objects self) r (set_last_used (objects self r) now)).

(** The scoring step on a given list of survivors. *)
Definition pick_best (self : AdvancedProxyRotator) (blocker_type : option SchoolBlockerType)
    (now : Z) (viable_proxies : list ref) : result (AdvancedProxyRotator * ref) :=
  match viable_proxies with
  | [] => Raise NoViableProxies
  | _ =>
      match sort_desc fst
              (map (fun r => (score (objects self r) blocker_type, r)) viable_proxies) with
      | [] => Raise IndexError
      | (_, best_proxy) :: _ => Ok (mark_used self best_proxy now, best_proxy)
      end
  end.

(** The registry invariant set up by the constructor: every bucket holds
    endpoints of the pool. *)
Definition registry_wf (self : AdvancedProxyRotator) : bool :=
  forallb (fun kv => forallb (fun r => existsb (Nat.eqb r) (proxy_pool self)) (snd kv))
          (proxies_by_state self).

Definition buckets_in_pool (self : AdvancedProxyRotator) : Prop :=
  forall k bucket, dict_get k (proxies_by_state self) = Some bucket ->
                   incl bucket (proxy_pool self).

(** ** The selection as the specification words it *)

Module SelectSpec.

(** Candidate [b] beats candidate [a]: a larger score, or the same score
    and a lower [latency_ms]. *)
Definition beats (self : AdvancedProxyRotator) (tag : option SchoolBlockerType)
    (a b : ref) : bool :=
  let sa := score (objects self a) tag in
  let sb := score (objects self b) tag in
  Qlt_bool sa sb
  || (Qeq_bool sa sb
      && Float.ltb (latency (objects self b)) (latency (objects self a))).

(** Maximum score, ties by lowest latency, further ties by insertion
    order (the first wins). *)
Fixpoint winner_from (self : AdvancedProxyRotator) (tag : option SchoolBlockerType)
    (best : ref) (l : list ref) : ref :=
  match l with
  | [] => best
  | r :: l' => winner_from self tag (if beats self tag best r then r else best) l'
  end.

Definition winner (self : AdvancedProxyRotator) (tag : option SchoolBlockerType)
    (l : list ref) : option ref :=
  match l with
  | [] => None
  | r :: l' => Some (winner_from self tag r l')
  end.

(** The fallback set of the specification: the candidates of the hinted
    bucket with [health >= DEGRADED], latency ignored. *)
Definition fallback (self : AdvancedProxyRotator) (bucket : list ref) : list ref :=
  filter (is_healthy self) bucket.

End SelectSpec.

(** ** Example registries *)

Module Fixture.

Definition endpoint (st provider : string) (l : xfloat) (sr : Q) (h : ProxyHealth)
  : ResidentialProxy :=
  mkProxy "10.0.0.1" 8080 st "city" provider 7018 l sr 0 h "http" None None.

Definition two (a b : ResidentialProxy) : ref -> ResidentialProxy :=
  fun r => match r with O => a | _ => b end.

(** Two regions of one endpoint each, both slower than the default
    ceiling of 200 ms. *)
Definition slow_regions : AdvancedProxyRotator :=
  mkRotator
    (two (endpoint "texas" "Altice" (Finite 500) 0.9 GOOD)
         (endpoint "california" "Altice" (Finite 500) 0.9 EXCELLENT))
    [("texas", [0%nat]); ("california", [1%nat])]%string
    [0%nat; 1%nat] false.

(** One region with two endpoints of equal score; the first is slower. *)
Definition equal_scores : AdvancedProxyRotator :=
  mkRotator
    (two (endpoint "texas" "Altice" (Finite 6000) 0.9 GOOD)
         (endpoint "texas" "Altice" (Finite 5500) 0.9 GOOD))
    [("texas", [0%nat; 1%nat])]%string
    [0%nat; 1%nat] false.

(** Two regions with one fast, good endpoint each. *)
Definition fast_regions : AdvancedProxyRotator :=
  mkRotator
    (two (endpoint "texas" "Comcast" (Finite 100) 0.9 GOOD)
         (endpoint "ohio" "Cox" (Finite 120) 0.95 EXCELLENT))
    [("texas", [0%nat]); ("ohio", [1%nat])]%string
    [0%nat; 1%nat] false.

(** Every endpoint dead. *)
Definition all_dead : AdvancedProxyRotator :=
  mkRotator
    (two (endpoint "texas" "Comcast" (Finite 100) 0.9 DEAD)
         (endpoint "ohio" "Cox" (Finite 120) 0.95 DEAD))
    [("texas", [0%nat]); ("ohio", [1%nat])]%string
    [0%nat; 1%nat] false.

End Fixture.

(** ** The probe cycle as the specification words it *)

Module ProbeSpec.

(** A probe succeeds on the expected status classes. *)
Definition succeeded (o : probe_outcome) : option Q :=
  match o with
  | Response status elapsed_ms =>
      if (status =? 200)%Z || (status =? 204)%Z then Some elapsed_ms else None
  | Failed => None
  end.

(** Latencies of the successful probes of one battery. *)
Fixpoint successes_of (probe : string -> probe_outcome) (urls : list string) : list Q :=
  match urls with
  | [] => []
  | u :: urls' =>
      match succeeded (probe u) with
      | Some ms => ms :: successes_of probe urls'
      | None => successes_of probe urls'
      end
  end.

Definition successes (probe : string -> probe_outcome) : list Q :=
  successes_of probe test_urls.

Definition attempted : nat := List.length test_urls.

Fixpoint total (l : list Q) : Q :=
  match l with
  | [] => 0
  | x :: l' => x + total l'
  end.

(** [rawSuccessRate = successes/attempted] *)
Definition rawSuccessRate (probe : string -> probe_outcome) : Q :=
  inject_Z (Z.of_nat (List.length (successes probe)))
  / inject_Z (Z.of_nat attempted).

(** [rawLatency] = mean latency of the successful probes, or the
    infinity sentinel with no success. *)
Definition rawLatency (probe : string -> probe_outcome) : xfloat :=
  match successes probe with
  | [] => PosInf
  | l => Finite (total l / inject_Z (Z.of_nat (List.length l)))
  end.

(** Exponential smoothing, 0.7 retained and 0.3 new. *)
Definition smooth (old new : Q) : Q := 0.7 * old + 0.3 * new.

Definition smooth_latency (old new : xfloat) : xfloat :=
  match old, new with
  | Finite a, Finite b => Finite (smooth a b)
  | _, _ => PosInf
  end.

(** The health thresholds, evaluated in order. *)
Definition classify (success_rate : Q) (latency_ms : xfloat) : ProxyHealth :=
  if Qle_bool 0.9 success_rate && Float.ltb latency_ms (Finite 300) then EXCELLENT
  else if Qle_bool 0.7 success_rate && Float.ltb latency_ms (Finite 600) then GOOD
  else if Qle_bool 0.5 success_rate then DEGRADED
  else POOR.

End ProbeSpec.

(** ** Operations on the registry, as a transition system *)

(** The operations that mutate endpoint records: a selection (a chain is
    a sequence of them) and a probe cycle on one endpoint. *)
Inductive operation : Type :=
| Select (target_state : option string) (blocker_type : option SchoolBlockerType)
         (target_latency : xfloat) (now : Z)
| Check (probe : string -> probe_outcome) (proxy : ref).

Definition run (o : operation) (self : AdvancedProxyRotator) : AdvancedProxyRotator :=
  match o with
  | Select target_state blocker_type target_latency now =>
      match get_optimal_proxy self target_state blocker_type target_latency now with
      | Ok (self', _) => self'
      | Raise _ => self         (* raised before any assignment *)
      end
  | Check probe proxy => fst (health_check_proxy probe self proxy)
  end.

Definition run_all (ops : list operation) (self : AdvancedProxyRotator)
  : AdvancedProxyRotator :=
  fold_left (fun s o => run o s) ops self.

Module ProbeFixture.

(** Two of the three probes answer, after 50 ms and 100 ms. *)
Definition two_of_three (url : string) : probe_outcome :=
  if String.eqb url "http://httpbin.org/ip" then Response 200 50
  else if String.eqb url "http://httpbin.org/user-agent" then Response 200 100
  else Failed.

(** All three probes answer after 50 ms. *)
Definition all_fast (url : string) : probe_outcome :=
  if String.eqb url "https://www.google.com/gen_204" then Response 204 50
  else Response 200 50.

(** No probe answers. *)
Definition none (url : string) : probe_outcome := Failed.

(** One endpoint with [success_rate = 0.5] and [latency = 200]. *)
Definition half : AdvancedProxyRotator :=
  mkRotator
    (fun _ => mkProxy "74.198.1.2" 8080 "texas" "Houston" "Comcast" 7018
                      (Finite 200) 0.5 0 DEGRADED "http"
                      (Some "user_texas_0") (Some "pass_12345"))%string
    [("texas", [0%nat])]%string [0%nat] false.

End ProbeFixture.

(** ** Frames *)

(** The identity and credential fields of two records agree. *)
Definition same_identity (p p' : ResidentialProxy) : Prop :=
  ip p' = ip p /\ port p' = port p /\ state p' = state p /\ city p' = city p
  /\ isp p' = isp p /\ asn p' = asn p /\ protocol p' = protocol p
  /\ username p' = username p /\ password p' = password p.

(** The live metrics written by the health monitor agree. *)
Definition same_metrics (p p' : ResidentialProxy) : Prop :=
  latency p' = latency p /\ success_rate p' = success_rate p /\ health p' = health p.

(** The region partitioning of two registries agrees. *)
Definition same_partition (self self' : AdvancedProxyRotator) : Prop :=
  proxies_by_state self' = proxies_by_state self /\ proxy_pool self' = proxy_pool self.

(** ** The policy tags with and without tables *)

Definition tabled_tags : list SchoolBlockerType :=
  [IBOSS; GOGUARDIAN; SECURELY; LANSCHOOL].

Definition untabled_tags : list SchoolBlockerType :=
  [LIGHTSPEED; BARKLY; SMOOTHWALL; FORTIGUARD; SONICWALL; PALOALTO].

(** ** Views on the chain builder *)

(** Two registries agree on everything but the [last_used] stamps. *)
Definition agree (self self' : AdvancedProxyRotator) : Prop :=
  same_partition self self'
  /\ forall r, same_identity (objects self r) (objects self' r)
               /\ same_metrics (objects self r) (objects self' r).

(** The endpoint a selection returns, if it returns one. *)
Definition selected_ref (self : AdvancedProxyRotator) (target_state : option string)
    (blocker_type : option SchoolBlockerType) (target_latency : xfloat) : option ref :=
  match get_optimal_proxy self target_state blocker_type target_latency 0 with
  | Ok (_, r) => Some r
  | Raise _ => None
  end.

(** The regions requested hop by hop: each one is drawn from the
    candidates not requested before while any is left, and from all the
    registry's regions afterwards.  [used] lists the earlier requests. *)
Fixpoint drawn (cands all : list string) (used targets : list string) : Prop :=
  match targets with
  | [] => True
  | t :: rest =>
      match filter (fun s => negb (str_in s used)) cands with
      | [] => In t all
      | available => In t available
      end
      /\ drawn cands all (t :: used) rest
  end.

(** The regions of the endpoints of a chain. *)
Definition regions_of (self : AdvancedProxyRotator) (chain : list ref) : list string :=
  map (fun r => state (objects self r)) chain.

(** ** Construction: [_initialize_residential_proxies] *)

(** [d[k] = v] *)
Fixpoint dict_set {V : Type} (k : string) (v : V) (d : dict V) : dict V :=
  match d with
  | [] => [(k, v)]
  | (k', v') :: d' =>
      if String.eqb k k' then (k, v) :: d' else (k', v') :: dict_set k v d'
  end.

Definition states_cities : dict (list string) :=
  [
   ("alabama", ["Birmingham"; "Montgomery"; "Mobile"; "Huntsville"; "Tuscaloosa"]);
   ("alaska", ["Anchorage"; "Fairbanks"; "Juneau"; "Sitka"; "Ketchikan"]);
   ("arizona", ["Phoenix"; "Tucson"; "Mesa"; "Chandler"; "Glendale"]);
   ("arkansas", ["Little Rock"; "Fort Smith"; "Fayetteville"; "Springdale"; "Jonesboro"]);
   ("california", ["Los Angeles"; "San Diego"; "San Jose"; "San Francisco"; "Fresno"]);
   ("colorado", ["Denver"; "Colorado Springs"; "Aurora"; "Fort Collins"; "Lakewood"]);
   ("connecticut", ["Bridgeport"; "New Haven"; "Stamford"; "Hartford"; "Waterbury"]);
   ("delaware", ["Wilmington"; "Dover"; "Newark"; "Middletown"; "Smyrna"]);
   ("florida", ["Jacksonville"; "Miami"; "Tampa"; "Orlando"; "St. Petersburg"]);
   ("georgia", ["Atlanta"; "Augusta"; "Columbus"; "Savannah"; "Athens"]);
   ("hawaii", ["Honolulu"; "Hilo"; "Kailua"; "Kapolei"; "Kaneohe"]);
   ("idaho", ["Boise"; "Meridian"; "Nampa"; "Idaho Falls"; "Pocatello"]);
   ("illinois", ["Chicago"; "Aurora"; "Naperville"; "Joliet"; "Rockford"]);
   ("indiana", ["Indianapolis"; "Fort Wayne"; "Evansville"; "South Bend"; "Carmel"]);
   ("iowa", ["Des Moines"; "Cedar Rapids"; "Davenport"; "Sioux City"; "Waterloo"]);
   ("kansas", ["Wichita"; "Overland Park"; "Kansas City"; "Olathe"; "Topeka"]);
   ("kentucky", ["Louisville"; "Lexington"; "Bowling Green"; "Owensboro"; "Covington"]);
   ("louisiana", ["New Orleans"; "Baton Rouge"; "Shreveport"; "Lafayette"; "Lake Charles"]);
   ("maine", ["Portland"; "Lewiston"; "Bangor"; "South Portland"; "Auburn"]);
   ("maryland", ["Baltimore"; "Frederick"; "Rockville"; "Gaithersburg"; "Bowie"]);
   ("massachusetts", ["Boston"; "Worcester"; "Springfield"; "Cambridge"; "Lowell"]);
   ("michigan", ["Detroit"; "Grand Rapids"; "Warren"; "Sterling Heights"; "Lansing"]);
   ("minnesota", ["Minneapolis"; "St. Paul"; "Rochester"; "Duluth"; "Bloomington"]);
   ("mississippi", ["Jackson"; "Gulfport"; "Southaven"; "Hattiesburg"; "Biloxi"]);
   ("missouri", ["Kansas City"; "St. Louis"; "Springfield"; "Independence"; "Columbia"]);
   ("montana", ["Billings"; "Missoula"; "Great Falls"; "Bozeman"; "Butte"]);
   ("nebraska", ["Omaha"; "Lincoln"; "Bellevue"; "Grand Island"; "Kearney"]);
   ("nevada", ["Las Vegas"; "Henderson"; "Reno"; "North Las Vegas"; "Sparks"]);
   ("new_hampshire", ["Manchester"; "Nashua"; "Concord"; "Derry"; "Rochester"]);
   ("new_jersey", ["Newark"; "Jersey City"; "Paterson"; "Elizabeth"; "Edison"]);
   ("new_mexico", ["Albuquerque"; "Las Cruces"; "Rio Rancho"; "Santa Fe"; "Roswell"]);
   ("new_york", ["New York"; "Buffalo"; "Rochester"; "Yonkers"; "Syracuse"]);
   ("north_carolina", ["Charlotte"; "Raleigh"; "Greensboro"; "Durham"; "Winston-Salem"]);
   ("north_dakota", ["Fargo"; "Bismarck"; "Grand Forks"; "Minot"; "West Fargo"]);
   ("ohio", ["Columbus"; "Cleveland"; "Cincinnati"; "Toledo"; "Akron"]);
   ("oklahoma", ["Oklahoma City"; "Tulsa"; "Norman"; "Broken Arrow"; "Lawton"]);
   ("oregon", ["Portland"; "Salem"; "Eugene"; "Gresham"; "Hillsboro"]);
   ("pennsylvania", ["Philadelphia"; "Pittsburgh"; "Allentown"; "Erie"; "Reading"]);
   ("rhode_island", ["Providence"; "Warwick"; "Cranston"; "Pawtucket"; "East Providence"]);
   ("south_carolina", ["Charleston"; "Columbia"; "North Charleston"; "Mount Pleasant"; "Rock Hill"]);
   ("south_dakota", ["Sioux Falls"; "Rapid City"; "Aberdeen"; "Brookings"; "Watertown"]);
   ("tennessee", ["Nashville"; "Memphis"; "Knoxville"; "Chattanooga"; "Clarksville"]);
   ("texas", ["Houston"; "San Antonio"; "Dallas"; "Austin"; "Fort Worth"]);
   ("utah", ["Salt Lake City"; "West Valley City"; "Provo"; "West Jordan"; "Orem"]);
   ("vermont", ["Burlington"; "South Burlington"; "Rutland"; "Barre"; "Montpelier"]);
   ("virginia", ["Virginia Beach"; "Norfolk"; "Chesapeake"; "Richmond"; "Newport News"]);
   ("washington", ["Seattle"; "Spokane"; "Tacoma"; "Vancouver"; "Bellevue"]);
   ("west_virginia", ["Charleston"; "Huntington"; "Parkersburg"; "Morgantown"; "Wheeling"]);
   ("wisconsin", ["Milwaukee"; "Madison"; "Green Bay"; "Kenosha"; "Racine"]);
   ("wyoming", ["Cheyenne"; "Casper"; "Laramie"; "Gillette"; "Rock Springs"])
  ]%string.

(** The random draws behind one endpoint: address, port, provider, AS
    number, latency in [30,400], success rate in [0.88,0.98], the time of
    last use, EXCELLENT or GOOD, and the password. *)
Record draws : Type := mkDraws {
  drawn_ip : string;
  drawn_port : Z;
  drawn_isp : string;
  drawn_asn : Z;
  drawn_latency : Q;
  drawn_success_rate : Q;
  drawn_last_used : Z;
  drawn_health : ProxyHealth;
  drawn_password : string
}.

(** [f"user_{state}_{i}"] for [i] in [range(5)] *)
Definition user_name (state : string) (i : nat) : string :=
  ("user_" ++ state ++ "_" ++ String (ascii_of_nat (48 + i)) "")%string.

(** The endpoint created for index [i] of a state.  [cities[i]] exists for
    every row of the table. *)
Definition create_proxy (rand : string -> nat -> draws)
    (state : string) (cities : list string) (i : nat) : ResidentialProxy :=
  let d := rand state i in
  let city := if (i <? List.length cities)%nat then nth i cities EmptyString
              else hd EmptyString cities in
  mkProxy (drawn_ip d) (drawn_port d) state city (drawn_isp d) (drawn_asn d)
          (Finite (drawn_latency d)) (drawn_success_rate d) (drawn_last_used d)
          (drawn_health d) "http" (Some (user_name state i)) (Some (drawn_password d)).

(** One iteration of [for state, cities in states_cities.items()]; [next]
    is the reference of the next object created. *)
Definition init_state (rand : string -> nat -> draws)
    (acc : AdvancedProxyRotator * ref) (entry : string * list string)
  : AdvancedProxyRotator * ref :=
  let self := fst acc in
  let next := snd acc in
  let state := fst entry in
  let cities := snd entry in
  let state_proxies := map (fun i => (next + i)%nat) (seq 0 5) in
  let objs :=
    fold_left (fun o i => store o (next + i)%nat (create_proxy rand state cities i))
              (seq 0 5) (objects self) in
  (mkRotator objs
             (dict_set state state_proxies (proxies_by_state self))
             (proxy_pool self ++ state_proxies)
             (session self),
   (next + 5)%nat).

(** The record behind a reference that no object has been created for. *)
Definition unallocated : ResidentialProxy :=
  mkProxy "" 0 "" "" "" 0 (Finite 0) 0 0 DEAD "" None None.

(** [AdvancedProxyRotator.__init__] *)
Definition init (rand : string -> nat -> draws) : AdvancedProxyRotator :=
  fst (fold_left (init_state rand) states_cities
                 (mkRotator (fun _ => unallocated) [] [] false, 0%nat)).

(** Bucket by bucket, the endpoints carry their bucket's region. *)
Definition regions_consistent (self : AdvancedProxyRotator) : bool :=
  forallb (fun kv => forallb (fun r => String.eqb (state (objects self r)) (fst kv))
                             (snd kv))
          (proxies_by_state self).

(** ** Telemetry: [get_blocker_performance_stats] *)

(** The per-state dict of the statistics. *)
Record state_stats : Type := mkStats {
  proxy_count : nat;
  healthy_proxies : nat;
  avg_blocker_score : Q;
  avg_latency : xfloat;
  recommendation : string
}.

(** [sum(...)] of scores: the built-in starts from 0 and adds from the
    left. *)
Definition sum_scores (l : list Q) : Q := fold_left Qplus l 0.

(** [sum(p.latency for p in proxies)].  Finite summands give a finite sum:
    the overflow of a binary64 sum to [inf] is outside the model, so
    nothing below concludes that an average is finite. *)
Definition sum_latencies (l : list xfloat) : xfloat := fold_left Float.add l (Finite 0).

(** [x / n] for a positive length [n]: [inf / n] is [inf]. *)
Definition div_len (x : xfloat) (n : nat) : xfloat :=
  match x with
  | Finite q => Finite (q / inject_Z (Z.of_nat n))
  | PosInf => PosInf
  end.

(** The dict built for one state with a non-empty bucket. *)
Definition stats_of (self : AdvancedProxyRotator) (blocker_type : option SchoolBlockerType)
    (proxies : list ref) : state_stats :=
  let blocker_scores := map (fun r => score (objects self r) blocker_type) proxies in
  let avg_score :=
    sum_scores blocker_scores / inject_Z (Z.of_nat (List.length blocker_scores)) in
  let avg_latency :=
    div_len (sum_latencies (map (fun r => latency (objects self r)) proxies))
            (List.length proxies) in
  let healthy_count :=
    List.length (filter (fun r => healthy (objects self r)) proxies) in
  mkStats (List.length proxies) healthy_count avg_score avg_latency
          (if Qlt_bool 0.8 avg_score then "EXCELLENT"
           else if Qlt_bool 0.6 avg_score then "GOOD"
           else "AVOID")%string.

(** One iteration of [for state, proxies in self.proxies_by_state.items()]:
    an empty bucket is skipped. *)
Definition stats_step (self : AdvancedProxyRotator) (blocker_type : option SchoolBlockerType)
    (stats : dict state_stats) (entry : string * list ref) : dict state_stats :=
  match snd entry with
  | [] => stats
  | _ :: _ => dict_set (fst entry) (stats_of self blocker_type (snd entry)) stats
  end.

Definition get_blocker_performance_stats (self : AdvancedProxyRotator)
    (blocker_type : option SchoolBlockerType) : dict state_stats :=
  fold_left (stats_step self blocker_type) (proxies_by_state self) [].

(** ** Predicates on records, probes and draws *)

(** The latency ceiling [get_proxy_for_school_blocker] passes on. *)
Definition tag_ceiling (t : SchoolBlockerType) : xfloat :=
  match blocker_latencies t with
  | Some l => l
  | None => Finite 200
  end.

(** The metrics of a record are in range: [success_rate] in [0,1] and a
    non-negative latency. *)
Definition valid_metrics (p : ResidentialProxy) : Prop :=
  0 <= success_rate p <= 1 /\ Float.leb (Finite 0) (latency p) = true.

(** Elapsed times are not negative. *)
Definition nonneg_probe (probe : string -> probe_outcome) : Prop :=
  forall url, match probe url with
              | Response _ elapsed_ms => 0 <= elapsed_ms
              | Failed => True
              end.

Definition timed_operation (o : operation) : Prop :=
  match o with
  | Select _ _ _ _ => True
  | Check probe _ => nonneg_probe probe
  end.

Definition is_select (o : operation) : bool :=
  match o with
  | Select _ _ _ _ => true
  | Check _ _ => false
  end.

(** [n] probe cycles in a row on one endpoint, each with the outcomes
    [probe]. *)
Fixpoint repeat_check (n : nat) (probe : string -> probe_outcome)
    (self : AdvancedProxyRotator) (proxy : ref) : AdvancedProxyRotator :=
  match n with
  | O => self
  | S n' => fst (health_check_proxy probe (repeat_check n' probe self proxy) proxy)
  end.

(** What the random module delivers for one endpoint of the constructor:
    [random.choice([EXCELLENT, GOOD])], [random.uniform(30, 400)] and
    [random.uniform(0.88, 0.98)]. *)
Definition valid_draw (d : draws) : Prop :=
  (drawn_health d = EXCELLENT \/ drawn_health d = GOOD)
  /\ 30 <= drawn_latency d <= 400
  /\ 0.88 <= drawn_success_rate d <= 0.98.

(** A record as the constructor makes them. *)
Definition fresh_record (p : ResidentialProxy) : Prop :=
  (health p = EXCELLENT \/ health p = GOOD)
  /\ (exists l, latency p = Finite l /\ 30 <= l <= 400)
  /\ 0.88 <= success_rate p <= 0.98.

Module DrawFixture.

(** Constant draws within the ranges. *)
Definition steady (state : string) (i : nat) : draws :=
  mkDraws "192.168.1.1" 8080 "Comcast" 7018 100 0.9 0 GOOD "pass_12345".

End DrawFixture.

(** The share of the old value left after [n] smoothing steps, [0.7^n]. *)
Fixpoint retained (n : nat) : Q :=
  match n with
  | O => 1
  | S n' => 0.7 * retained n'
  end.

(** The invariant of the constructor's loop: the endpoints of the pool
    have references below the next one and satisfy [Q]. *)
Definition created_below (Q : ResidentialProxy -> Prop)
    (acc : AdvancedProxyRotator * ref) : Prop :=
  forall r, In r (proxy_pool (fst acc)) ->
            (r < snd acc)%nat /\ Q (objects (fst acc) r).

(** * Properties *)

(** ** Booleans and orders *)

Lemma Qlt_bool_iff (a b : Q) : Qlt_bool a b = true <-> a < b.
Proof.
  unfold Qlt_bool. rewrite negb_true_iff.
  split; intros H.
  - apply Qnot_le_lt. intros Hle. apply Qle_bool_iff in Hle. congruence.
  - destruct (Qle_bool b a) eqn:E; [| reflexivity].
    apply Qle_bool_iff in E. apply Qle_not_lt in E. contradiction.
Qed.

Lemma Qlt_bool_false_iff (a b : Q) : Qlt_bool a b = false <-> b <= a.
Proof.
  unfold Qlt_bool. rewrite negb_false_iff. apply Qle_bool_iff.
Qed.

Lemma str_in_iff (s : string) (l : list string) : str_in s l = true <-> In s l.
Proof.
  unfold str_in. rewrite existsb_exists. split.
  - intros [x [Hin Heq]]. apply String.eqb_eq in Heq. now subst.
  - intros Hin. exists s. split; [assumption | apply String.eqb_refl].
Qed.

Lemma str_in_false_iff (s : string) (l : list string) : str_in s l = false <-> ~ In s l.
Proof.
  rewrite <- str_in_iff. destruct (str_in s l); split; congruence.
Qed.

Lemma healthy_iff (p : ResidentialProxy) :
  healthy p = true <-> (value DEGRADED <= value (health p))%Z.
Proof. unfold healthy. apply Z.leb_le. Qed.

(** ** The score against its specification *)

(** No provider is both preferred and avoided under one tag, so the order
    in which the two lists are consulted does not matter. *)
Lemma preferred_avoided_disjoint (t : SchoolBlockerType) (s : string) :
  In s (ScoreSpec.preferred t) -> In s (ScoreSpec.avoided t) -> False.
Proof.
  unfold ScoreSpec.preferred, ScoreSpec.avoided.
  intros Hp Ha.
  destruct t; simpl in Hp, Ha; try contradiction;
    repeat (destruct Hp as [Hp | Hp];
            [ subst s;
              repeat (destruct Ha as [Ha | Ha]; [discriminate Ha |]);
              contradiction
            | ]);
    contradiction.
Qed.

Lemma blocker_score_spec (p : ResidentialProxy) (tag : option SchoolBlockerType) :
  _calculate_blocker_score p tag = ScoreSpec.providerScore (isp p) tag.
Proof.
  destruct tag as [t |]; [| reflexivity].
  unfold _calculate_blocker_score, ScoreSpec.providerScore,
    ScoreSpec.preferred, ScoreSpec.avoided.
  destruct (in_dec string_dec (isp p) (get_preferred (blocker_optimizations t))) as [Hi | Hn].
  - apply str_in_iff in Hi. now rewrite Hi.
  - apply str_in_false_iff in Hn. rewrite Hn.
    destruct (in_dec string_dec (isp p) (get_avoid (blocker_optimizations t))) as [Hi' | Hn'].
    + apply str_in_iff in Hi'. now rewrite Hi'.
    + apply str_in_false_iff in Hn'. now rewrite Hn'.
Qed.

Lemma blocker_score_range (p : ResidentialProxy) (tag : option SchoolBlockerType) :
  0 <= _calculate_blocker_score p tag <= 1.
Proof.
  unfold _calculate_blocker_score.
  destruct tag as [t |]; [| split; discriminate].
  destruct (str_in _ _); [split; discriminate |].
  destruct (str_in _ _); split; discriminate.
Qed.

Lemma latency_score_range (l : xfloat) :
  Float.leb (Finite 0) l = true -> 0 <= latency_score l <= 1.
Proof.
  destruct l as [q |]; simpl; intros H.
  - apply Qle_bool_iff in H.
    assert (Hq : 1 - q / 5000 <= 1).
    { unfold Qdiv. assert (0 <= q * / 5000) by (apply Qmult_le_0_compat; [assumption | discriminate]). lra. }
    destruct (Q.max_spec 0 (1 - q / 5000)) as [[H1 H2] | [H1 H2]]; rewrite H2; lra.
  - lra.
Qed.

Lemma health_value_range (h : ProxyHealth) : 0 <= inject_Z (value h) <= 4.
Proof. destruct h; split; discriminate. Qed.

(** C1.  For every endpoint with [success_rate] in [0,1] and a
    non-negative latency, and for every optional policy tag, [score] is
    the weighted sum 0.30*latencyScore + 0.40*success_rate +
    0.20*(health ordinal / 4) + 0.10*providerScore of the specification,
    where providerScore is 1.0 on the tag's preferred providers, 0.0 on
    its avoided ones, 0.5 otherwise and 0.5 without a tag; the score lies
    in [0,1]. *)
Theorem score_weighted_sum (e : ResidentialProxy) (tag : option SchoolBlockerType) :
  0 <= success_rate e <= 1 ->
  Float.leb (Finite 0) (latency e) = true ->
  score e tag == ScoreSpec.score_spec e tag
  /\ score e tag ==
       0.30 * ScoreSpec.latencyScore (latency e) + 0.40 * success_rate e
       + 0.20 * (inject_Z (value (health e)) / 4)
       + 0.10 * ScoreSpec.providerScore (isp e) tag
  /\ (tag = None -> ScoreSpec.providerScore (isp e) tag == 0.5)
  /\ (forall t, tag = Some t ->
        (In (isp e) (ScoreSpec.preferred t) ->
           ScoreSpec.providerScore (isp e) tag == 1)
        /\ (In (isp e) (ScoreSpec.avoided t) ->
           ScoreSpec.providerScore (isp e) tag == 0)
        /\ (~ In (isp e) (ScoreSpec.preferred t) ->
            ~ In (isp e) (ScoreSpec.avoided t) ->
           ScoreSpec.providerScore (isp e) tag == 0.5))
  /\ 0 <= score e tag <= 1.
Proof.
  intros Hsr Hlat.
  assert (Hformula : score e tag ==
       0.30 * ScoreSpec.latencyScore (latency e) + 0.40 * success_rate e
       + 0.20 * (inject_Z (value (health e)) / 4)
       + 0.10 * ScoreSpec.providerScore (isp e) tag).
  { unfold score. rewrite blocker_score_spec.
    change (ScoreSpec.latencyScore (latency e)) with (latency_score (latency e)).
    field. }
  split; [exact Hformula |].
  split; [exact Hformula |].
  split; [intros ->; reflexivity |].
  split.
  - intros t ->. unfold ScoreSpec.providerScore.
    destruct (in_dec string_dec (isp e) (ScoreSpec.preferred t)) as [Hp | Hp].
    + repeat split; intros; try reflexivity; try contradiction.
      exfalso. eapply preferred_avoided_disjoint; eassumption.
    + destruct (in_dec string_dec (isp e) (ScoreSpec.avoided t)) as [Ha | Ha];
        repeat split; intros; try reflexivity; contradiction.
  - unfold score.
    pose proof (latency_score_range (latency e) Hlat) as Hl.
    pose proof (blocker_score_range e tag) as Hb.
    pose proof (health_value_range (health e)) as Hh.
    split; lra.
Qed.

Lemma score_weighted_sum_witness :
  let e := mkProxy "74.198.1.2" 8080 "texas" "Houston" "Comcast" 7018
                   (Finite 100) 0.9 0 GOOD "http" None None in
  score e (Some IBOSS) == 0.904 /\ 0 <= score e (Some IBOSS) <= 1.
Proof.
  intros e.
  assert (Hsr : 0 <= success_rate e <= 1) by (split; discriminate).
  assert (Hlat : Float.leb (Finite 0) (latency e) = true) by reflexivity.
  destruct (score_weighted_sum e (Some IBOSS) Hsr Hlat) as (_ & _ & _ & _ & Hrange).
  split; [reflexivity | exact Hrange].
Defined.

(** ** The stable descending sort *)

Section SortFacts.
Context {A : Type} (key : A -> Q).

Lemma insert_desc_perm (x : A) (l : list A) :
  Permutation (insert_desc key x l) (x :: l).
Proof.
  induction l as [| y l IH]; simpl.
  - apply Permutation_refl.
  - destruct (Qlt_bool (key x) (key y)).
    + eapply Permutation_trans; [apply perm_skip, IH | apply perm_swap].
    + apply Permutation_refl.
Qed.

Lemma sort_desc_perm (l : list A) : Permutation (sort_desc key l) l.
Proof.
  induction l as [| x l IH]; simpl.
  - apply perm_nil.
  - eapply Permutation_trans; [apply insert_desc_perm | now apply perm_skip].
Qed.

Lemma insert_desc_descending (x : A) (l : list A) :
  descending key l -> descending key (insert_desc key x l).
Proof.
  induction l as [| y l IH]; simpl; intros Hd.
  - split; [constructor | exact I].
  - destruct Hd as [Hy Hl].
    destruct (Qlt_bool (key x) (key y)) eqn:E.
    + simpl. split; [| now apply IH].
      apply Qlt_bool_iff in E.
      eapply Permutation_Forall; [apply Permutation_sym, insert_desc_perm |].
      constructor; [now apply Qlt_le_weak | exact Hy].
    + apply Qlt_bool_false_iff in E. simpl. repeat split; try assumption.
      constructor; [exact E |].
      eapply Forall_impl; [| exact Hy].
      intros a Ha. simpl in Ha. eapply Qle_trans; eassumption.
Qed.

Lemma sort_desc_descending (l : list A) : descending key (sort_desc key l).
Proof.
  induction l as [| x l IH]; simpl; [exact I | now apply insert_desc_descending].
Qed.

(** Stability: the elements of any one key value keep their order. *)
Lemma insert_desc_stable (k : Q) (x : A) (l : list A) :
  descending key l ->
  filter (fun y => Qeq_bool (key y) k) (insert_desc key x l)
  = filter (fun y => Qeq_bool (key y) k) (x :: l).
Proof.
  induction l as [| y l IH]; intros Hd; [reflexivity |].
  simpl in Hd. destruct Hd as [Hy Hl].
  cbn [insert_desc].
  destruct (Qlt_bool (key x) (key y)) eqn:E; [| reflexivity].
  apply Qlt_bool_iff in E.
  cbn [filter]. rewrite (IH Hl). cbn [filter].
  destruct (Qeq_bool (key x) k) eqn:Ex; [| reflexivity].
  destruct (Qeq_bool (key y) k) eqn:Ey; [| reflexivity].
  apply Qeq_bool_iff in Ex. apply Qeq_bool_iff in Ey.
  exfalso. rewrite Ex, Ey in E. now apply Qlt_irrefl in E.
Qed.

Lemma sort_desc_stable (k : Q) (l : list A) :
  filter (fun y => Qeq_bool (key y) k) (sort_desc key l)
  = filter (fun y => Qeq_bool (key y) k) l.
Proof.
  induction l as [| x l IH]; [reflexivity |].
  cbn [sort_desc]. rewrite insert_desc_stable by apply sort_desc_descending.
  cbn [filter]. now rewrite IH.
Qed.

(** The head of the sorted list is the first element of maximal key. *)
Lemma sort_desc_head (x : A) (l : list A) :
  exists h t before after,
    sort_desc key (x :: l) = h :: t
    /\ x :: l = before ++ h :: after
    /\ Forall (fun y => key y < key h) before
    /\ Forall (fun y => key y <= key h) after.
Proof.
  revert x. induction l as [| y l IH]; intros x.
  - exists x, [], [], []. repeat split; constructor.
  - destruct (IH y) as (h & t & before & after & Hs & Hl & Hb & Ha).
    cbn [sort_desc] in Hs |- *. rewrite Hs. cbn [insert_desc].
    destruct (Qlt_bool (key x) (key h)) eqn:E.
    + apply Qlt_bool_iff in E.
      exists h, (insert_desc key x t), (x :: before), after.
      repeat split; try assumption.
      * rewrite Hl. reflexivity.
      * constructor; assumption.
    + apply Qlt_bool_false_iff in E.
      exists x, (h :: t), [], (y :: l).
      repeat split; try constructor.
      * assert (Hall : Forall (fun z => key z <= key h) (y :: l)).
        { rewrite Hl. apply Forall_app. split.
          - eapply Forall_impl; [| exact Hb]. intros a Ha'. now apply Qlt_le_weak.
          - constructor; [apply Qle_refl | exact Ha]. }
        inversion Hall; subst. eapply Qle_trans; eassumption.
      * assert (Hall : Forall (fun z => key z <= key h) (y :: l)).
        { rewrite Hl. apply Forall_app. split.
          - eapply Forall_impl; [| exact Hb]. intros a Ha'. now apply Qlt_le_weak.
          - constructor; [apply Qle_refl | exact Ha]. }
        inversion Hall; subst.
        eapply Forall_impl; [| eassumption].
        intros a Ha'. simpl in Ha'. eapply Qle_trans; eassumption.
Qed.

End SortFacts.

(** ** Selection *)

Lemma get_optimal_proxy_pick (self : AdvancedProxyRotator) (target_state : option string)
    (blocker_type : option SchoolBlockerType) (target_latency : xfloat) (now : Z) :
  get_optimal_proxy self target_state blocker_type target_latency now
  = pick_best self blocker_type now (survivors self target_state target_latency).
Proof.
  unfold get_optimal_proxy, pick_best, survivors, is_viable, is_healthy, mark_used.
  destruct (filter _ (candidates self target_state)); reflexivity.
Qed.

Lemma pick_best_first_max (self : AdvancedProxyRotator)
    (blocker_type : option SchoolBlockerType) (now : Z) (l : list ref) :
  l <> [] ->
  exists best before after,
    pick_best self blocker_type now l = Ok (mark_used self best now, best)
    /\ l = before ++ best :: after
    /\ Forall (fun r => score (objects self r) blocker_type
                        < score (objects self best) blocker_type) before
    /\ Forall (fun r => score (objects self r) blocker_type
                        <= score (objects self best) blocker_type) after.
Proof.
  intros Hne. destruct l as [| r l]; [contradiction |].
  unfold pick_best.
  set (f := fun r0 : ref => (score (objects self r0) blocker_type, r0)).
  destruct (sort_desc_head fst (f r) (map f l))
    as (h & t & before & after & Hs & Hl & Hb & Ha).
  change (f r :: map f l) with (map f (r :: l)) in Hs, Hl.
  rewrite Hs.
  apply map_eq_app in Hl. destruct Hl as (l1 & l2 & Hl & H1 & H2).
  apply map_eq_cons in H2. destruct H2 as (best & l3 & -> & Hh & H3).
  subst h before after. simpl.
  exists best, l1, l3. repeat split.
  - exact Hl.
  - exact (proj1 (Forall_map f (fun y => fst y < fst (f best)) l1) Hb).
  - exact (proj1 (Forall_map f (fun y => fst y <= fst (f best)) l3) Ha).
Qed.

Lemma pick_best_cases (self : AdvancedProxyRotator)
    (blocker_type : option SchoolBlockerType) (now : Z) (l : list ref) :
  (l = [] /\ pick_best self blocker_type now l = Raise NoViableProxies)
  \/ (exists best, In best l
        /\ pick_best self blocker_type now l = Ok (mark_used self best now, best)).
Proof.
  destruct l as [| r l]; [left; split; reflexivity |].
  right.
  destruct (pick_best_first_max self blocker_type now (r :: l)) as
    (best & before & after & Hp & Hl & _); [discriminate |].
  exists best. split; [| exact Hp].
  rewrite Hl. apply in_or_app. right. now left.
Qed.

Lemma survivors_healthy (self : AdvancedProxyRotator) (target_state : option string)
    (target_latency : xfloat) (r : ref) :
  In r (survivors self target_state target_latency) -> healthy (objects self r) = true.
Proof.
  unfold survivors.
  destruct (filter (is_viable self target_latency) (candidates self target_state))
    as [| v vs] eqn:E; intros Hin.
  - apply filter_In in Hin. apply Hin.
  - rewrite <- E in Hin. apply filter_In in Hin. destruct Hin as [_ Hv].
    unfold is_viable in Hv. now apply andb_true_iff in Hv.
Qed.

Lemma dict_get_In {V : Type} (k : string) (d : dict V) (v : V) :
  dict_get k d = Some v -> In (k, v) d.
Proof.
  induction d as [| [k' v'] d IH]; simpl; [discriminate |].
  destruct (String.eqb_spec k k') as [-> | Hne]; intros H.
  - injection H as ->. now left.
  - right. now apply IH.
Qed.

Lemma registry_wf_buckets (self : AdvancedProxyRotator) :
  registry_wf self = true -> buckets_in_pool self.
Proof.
  unfold registry_wf, buckets_in_pool. intros Hwf k bucket Hget r Hin.
  rewrite forallb_forall in Hwf.
  specialize (Hwf _ (dict_get_In _ _ _ Hget)). simpl in Hwf.
  rewrite forallb_forall in Hwf. specialize (Hwf r Hin).
  apply existsb_exists in Hwf. destruct Hwf as (x & Hx & Heq).
  apply Nat.eqb_eq in Heq. now subst.
Qed.

Lemma candidates_in_pool (self : AdvancedProxyRotator) (target_state : option string) :
  buckets_in_pool self -> incl (candidates self target_state) (proxy_pool self).
Proof.
  intros Hwf. unfold candidates.
  destruct target_state as [s |]; [| apply incl_refl].
  destruct (truthy s); [| apply incl_refl].
  destruct (dict_get (lower s) (proxies_by_state self)) as [bucket |] eqn:E;
    [| apply incl_refl].
  eapply Hwf. exact E.
Qed.

Lemma survivors_in_pool (self : AdvancedProxyRotator) (target_state : option string)
    (target_latency : xfloat) :
  buckets_in_pool self ->
  incl (survivors self target_state target_latency) (proxy_pool self).
Proof.
  intros Hwf r. unfold survivors.
  destruct (filter (is_viable self target_latency) (candidates self target_state))
    as [| v vs] eqn:E; intros Hin.
  - apply filter_In in Hin. apply Hin.
  - rewrite <- E in Hin. apply filter_In in Hin.
    eapply candidates_in_pool; [exact Hwf | apply Hin].
Qed.

Lemma survivors_nil_iff (self : AdvancedProxyRotator) (target_state : option string)
    (target_latency : xfloat) :
  buckets_in_pool self ->
  survivors self target_state target_latency = []
  <-> (forall r, In r (proxy_pool self) -> healthy (objects self r) = false).
Proof.
  intros Hwf. split.
  - intros Hs r Hin.
    unfold survivors in Hs.
    destruct (filter (is_viable self target_latency) (candidates self target_state));
      [| discriminate].
    destruct (healthy (objects self r)) eqn:E; [| reflexivity].
    assert (Hr : In r (filter (is_healthy self) (proxy_pool self)))
      by (apply filter_In; split; assumption).
    rewrite Hs in Hr. contradiction.
  - intros Hall.
    destruct (survivors self target_state target_latency) as [| r l] eqn:E;
      [reflexivity |].
    assert (Hin : In r (survivors self target_state target_latency))
      by (rewrite E; now left).
    pose proof (survivors_healthy _ _ _ _ Hin) as Hh.
    apply (survivors_in_pool _ _ _ Hwf) in Hin.
    rewrite (Hall r Hin) in Hh. discriminate.
Qed.

Lemma mark_used_objects_other (self : AdvancedProxyRotator) (w r : ref) (now : Z) :
  r <> w -> objects (mark_used self w now) r = objects self r.
Proof.
  intros Hne. unfold mark_used, with_objects, store. simpl.
  destruct (Nat.eqb_spec r w); [contradiction | reflexivity].
Qed.

Lemma mark_used_objects_same (self : AdvancedProxyRotator) (w : ref) (now : Z) :
  objects (mark_used self w now) w = set_last_used (objects self w) now.
Proof.
  unfold mark_used, with_objects, store. simpl. now rewrite Nat.eqb_refl.
Qed.

Lemma mark_used_health (self : AdvancedProxyRotator) (w r : ref) (now : Z) :
  health (objects (mark_used self w now) r) = health (objects self r).
Proof.
  destruct (Nat.eq_dec r w) as [-> | Hne].
  - now rewrite mark_used_objects_same.
  - now rewrite mark_used_objects_other.
Qed.

(** C2, as amended.  When the hint names a non-empty bucket none of whose
    endpoints passes the viability filter, the fallback set is the whole
    pool's endpoints with [health >= DEGRADED], latency ignored, not the
    hinted bucket's.  The selection succeeds as soon as that pool-wide set
    is non-empty, and the endpoint it returns is a best-scoring member of
    that set: a healthy endpoint of the pool whose score no healthy
    endpoint of the pool exceeds, the earliest of the pool among those of
    that score; it need not lie in the hinted bucket. *)
Theorem fallback_is_pool_wide (self : AdvancedProxyRotator) (hint : string)
    (bucket : list ref) (tag : option SchoolBlockerType) (ceiling : xfloat) (now : Z) :
  truthy hint = true ->
  dict_get (lower hint) (proxies_by_state self) = Some bucket ->
  bucket <> [] ->
  filter (is_viable self ceiling) bucket = [] ->
  survivors self (Some hint) ceiling = filter (is_healthy self) (proxy_pool self)
  /\ get_optimal_proxy self (Some hint) tag ceiling now
     = pick_best self tag now (filter (is_healthy self) (proxy_pool self))
  /\ (filter (is_healthy self) (proxy_pool self) <> [] ->
      exists best before after,
        get_optimal_proxy self (Some hint) tag ceiling now
        = Ok (mark_used self best now, best)
        /\ filter (is_healthy self) (proxy_pool self) = before ++ best :: after
        /\ Forall (fun r => score (objects self r) tag
                            < score (objects self best) tag) before
        /\ Forall (fun r => score (objects self r) tag
                            <= score (objects self best) tag) after)
  /\ (forall self' best,
        get_optimal_proxy self (Some hint) tag ceiling now = Ok (self', best) ->
        In best (proxy_pool self)
        /\ healthy (objects self best) = true
        /\ (forall r, In r (proxy_pool self) -> healthy (objects self r) = true ->
                      score (objects self r) tag <= score (objects self best) tag)).
Proof.
  intros Ht Hget Hne Hnone.
  assert (Hs : survivors self (Some hint) ceiling
               = filter (is_healthy self) (proxy_pool self)).
  { unfold survivors, candidates. rewrite Ht, Hget, Hnone. reflexivity. }
  rewrite get_optimal_proxy_pick, Hs.
  split; [reflexivity |]. split; [reflexivity |]. split.
  - intros Hfb.
    destruct (pick_best_first_max self tag now _ Hfb)
      as (best & before & after & Hp & Hl & Hb & Ha).
    exists best, before, after. repeat split; assumption.
  - intros self' best Hok.
    assert (Hfb : filter (is_healthy self) (proxy_pool self) <> []).
    { intros E. rewrite E in Hok. discriminate Hok. }
    destruct (pick_best_first_max self tag now _ Hfb)
      as (best' & before & after & Hp & Hl & Hb & Ha).
    rewrite Hp in Hok. injection Hok as _ <-.
    assert (Hin : In best' (filter (is_healthy self) (proxy_pool self)))
      by (rewrite Hl; apply in_or_app; right; now left).
    apply filter_In in Hin. destruct Hin as [Hpool Hh].
    split; [exact Hpool |]. split; [exact Hh |].
    intros r Hr Hhr.
    assert (Hrin : In r (filter (is_healthy self) (proxy_pool self)))
      by (apply filter_In; split; assumption).
    rewrite Hl in Hrin. apply in_app_or in Hrin.
    rewrite Forall_forall in Hb, Ha.
    destruct Hrin as [Hrb | [<- | Hra]].
    + apply Qlt_le_weak. now apply Hb.
    + apply Qle_refl.
    + now apply Ha.
Qed.

Lemma fallback_is_pool_wide_witness :
  exists best,
    get_optimal_proxy Fixture.slow_regions (Some "Texas"%string) None
                      default_target_latency 42
    = Ok (mark_used Fixture.slow_regions best 42, best)
    /\ score (objects Fixture.slow_regions 0%nat) None
       <= score (objects Fixture.slow_regions best) None.
Proof.
  assert (Ht : truthy "Texas" = true) by reflexivity.
  assert (Hget : dict_get (lower "Texas") (proxies_by_state Fixture.slow_regions)
                 = Some [0%nat]) by reflexivity.
  assert (Hne : [0%nat] <> []) by discriminate.
  assert (Hnone : filter (is_viable Fixture.slow_regions default_target_latency) [0%nat]
                  = []) by reflexivity.
  destruct (fallback_is_pool_wide Fixture.slow_regions "Texas" [0%nat] None
              default_target_latency 42 Ht Hget Hne Hnone) as (_ & _ & Hex & Hmax).
  destruct Hex as (best & before & after & Hok & _); [discriminate |].
  exists best. split; [exact Hok |].
  destruct (Hmax _ _ Hok) as (_ & _ & Hle).
  apply Hle; [now left | reflexivity].
Defined.

(** C2 as stated fails: the hinted bucket "texas" has no viable endpoint
    but a healthy one, and the endpoint returned is the one of
    "california". *)
Lemma fallback_leaves_hinted_region :
  let self := Fixture.slow_regions in
  dict_get (lower "texas") (proxies_by_state self) = Some [0%nat]
  /\ filter (is_viable self default_target_latency) [0%nat] = []
  /\ SelectSpec.fallback self [0%nat] = [0%nat]
  /\ get_optimal_proxy self (Some "texas"%string) None default_target_latency 42
     = Ok (mark_used self 1%nat 42, 1%nat)
  /\ ~ In 1%nat (SelectSpec.fallback self [0%nat])
  /\ state (objects self 1%nat) = "california"%string
  /\ state (objects self 0%nat) = "texas"%string.
Proof.
  cbv zeta. repeat split; try reflexivity.
  intros [H | []]. discriminate H.
Qed.

(** C3, as amended.  On a non-empty list of surviving candidates the
    selection returns a candidate of maximal score, and among the
    candidates of maximal score the earliest of the list (registry
    insertion order), whatever their latencies: every candidate before the
    winner scores strictly less, every one after it at most as much.  The
    result is a function of the registry, with no random choice. *)
Theorem selection_first_of_max (self : AdvancedProxyRotator) (target_state : option string)
    (tag : option SchoolBlockerType) (ceiling : xfloat) (now : Z) :
  survivors self target_state ceiling <> [] ->
  exists best before after,
    get_optimal_proxy self target_state tag ceiling now
    = Ok (mark_used self best now, best)
    /\ survivors self target_state ceiling = before ++ best :: after
    /\ Forall (fun r => score (objects self r) tag < score (objects self best) tag) before
    /\ Forall (fun r => score (objects self r) tag <= score (objects self best) tag) after.
Proof.
  intros Hne. rewrite get_optimal_proxy_pick.
  now apply pick_best_first_max.
Qed.

Lemma selection_first_of_max_witness :
  exists best before after,
    get_optimal_proxy Fixture.equal_scores None None default_target_latency 42
    = Ok (mark_used Fixture.equal_scores best 42, best)
    /\ survivors Fixture.equal_scores None default_target_latency
       = before ++ best :: after.
Proof.
  assert (Hne : survivors Fixture.equal_scores None default_target_latency <> [])
    by (vm_compute; discriminate).
  destruct (selection_first_of_max Fixture.equal_scores None None
              default_target_latency 42 Hne)
    as (best & before & after & Hok & Hl & _).
  exists best, before, after. split; assumption.
Defined.

(** C3 as stated fails: two survivors share the maximal score, the second
    has the lower latency and is the specification's winner, and the
    selection returns the first. *)
Lemma tie_break_ignores_latency :
  let self := Fixture.equal_scores in
  survivors self None default_target_latency = [0%nat; 1%nat]
  /\ score (objects self 0%nat) None == score (objects self 1%nat) None
  /\ Float.ltb (latency (objects self 1%nat)) (latency (objects self 0%nat)) = true
  /\ SelectSpec.winner self None [0%nat; 1%nat] = Some 1%nat
  /\ get_optimal_proxy self None None default_target_latency 42
     = Ok (mark_used self 0%nat 42, 0%nat).
Proof.
  cbv zeta. repeat split; reflexivity.
Qed.

(** C5.  On a registry whose buckets hold endpoints of the pool, the
    selection raises the no-viable-endpoint exception exactly when no
    endpoint of the whole pool has [health >= DEGRADED]; otherwise it
    returns, and the endpoint returned has [health >= DEGRADED].  With
    every endpoint [DEAD] it raises. *)
Theorem no_viable_iff_pool_unhealthy (self : AdvancedProxyRotator)
    (target_state : option string) (tag : option SchoolBlockerType)
    (ceiling : xfloat) (now : Z) :
  registry_wf self = true ->
  (get_optimal_proxy self target_state tag ceiling now = Raise NoViableProxies
   <-> forall r, In r (proxy_pool self) -> healthy (objects self r) = false)
  /\ (get_optimal_proxy self target_state tag ceiling now = Raise NoViableProxies
      \/ exists best,
           get_optimal_proxy self target_state tag ceiling now
           = Ok (mark_used self best now, best))
  /\ (forall self' best,
        get_optimal_proxy self target_state tag ceiling now = Ok (self', best) ->
        (value DEGRADED <= value (health (objects self' best)))%Z
        /\ (value DEGRADED <= value (health (objects self best)))%Z)
  /\ ((forall r, In r (proxy_pool self) -> health (objects self r) = DEAD) ->
      get_optimal_proxy self target_state tag ceiling now = Raise NoViableProxies).
Proof.
  intros Hwf. apply registry_wf_buckets in Hwf.
  pose proof (survivors_nil_iff self target_state ceiling Hwf) as Hnil.
  rewrite get_optimal_proxy_pick.
  destruct (pick_best_cases self tag now (survivors self target_state ceiling))
    as [[He Hr] | (best & Hin & Hp)].
  - assert (Hun := proj1 Hnil He).
    rewrite Hr. repeat split; auto; intros; discriminate.
  - assert (Hne : survivors self target_state ceiling <> [])
      by (intros E; rewrite E in Hin; contradiction).
    rewrite Hp. split; [| split; [| split]].
    + split; [discriminate |]. intros Hall. exfalso. apply Hne. now apply Hnil.
    + right. now exists best.
    + intros self' b' Hok. injection Hok as <- <-.
      rewrite mark_used_health.
      apply survivors_healthy in Hin. apply healthy_iff in Hin. split; exact Hin.
    + intros Hdead. exfalso. apply Hne, Hnil.
      intros r Hr. unfold healthy. now rewrite (Hdead r Hr).
Qed.

Lemma no_viable_iff_pool_unhealthy_witness :
  get_optimal_proxy Fixture.all_dead (Some "texas"%string) (Some IBOSS)
                    default_target_latency 42 = Raise NoViableProxies.
Proof.
  assert (Hwf : registry_wf Fixture.all_dead = true) by reflexivity.
  destruct (no_viable_iff_pool_unhealthy Fixture.all_dead (Some "texas"%string)
              (Some IBOSS) default_target_latency 42 Hwf) as (_ & _ & _ & Hdead).
  apply Hdead. intros r [<- | [<- | []]]; reflexivity.
Defined.

(** ** The probe cycle *)

Lemma leb_eqv_r (x y y' : xfloat) : Float.eqv y y' -> Float.leb x y = Float.leb x y'.
Proof.
  destruct x as [a |], y as [b |], y' as [b' |]; simpl; intros H;
    try contradiction; try reflexivity.
  now rewrite H.
Qed.

Lemma ltb_eqv_l (x x' y : xfloat) : Float.eqv x x' -> Float.ltb x y = Float.ltb x' y.
Proof. intros H. unfold Float.ltb. now rewrite (leb_eqv_r y x x' H). Qed.

Lemma eqv_trans (x y z : xfloat) : Float.eqv x y -> Float.eqv y z -> Float.eqv x z.
Proof.
  destruct x, y, z; simpl; auto; try contradiction.
  intros H1 H2. now rewrite H1.
Qed.

Lemma classify_eqv (s : Q) (l l' : xfloat) :
  Float.eqv l l' -> ProbeSpec.classify s l = ProbeSpec.classify s l'.
Proof.
  intros H. unfold ProbeSpec.classify.
  now rewrite !(ltb_eqv_l l l' _ H).
Qed.

Lemma ltb_inf (y : xfloat) : Float.ltb PosInf y = false.
Proof. destruct y; reflexivity. Qed.

(** The probe loop counts the successes and adds up their latencies. *)
Lemma probe_loop (probe : string -> probe_outcome) (urls : list string) (c : Z) (t : Q) :
  fst (fold_left (probe_step probe) urls (c, t))
  = (c + Z.of_nat (List.length (ProbeSpec.successes_of probe urls)))%Z
  /\ snd (fold_left (probe_step probe) urls (c, t))
     == t + ProbeSpec.total (ProbeSpec.successes_of probe urls).
Proof.
  revert c t. induction urls as [| u urls IH]; intros c t.
  - simpl. split; [lia | ring].
  - cbn [fold_left ProbeSpec.successes_of].
    unfold probe_step at 2 4. unfold ProbeSpec.succeeded.
    destruct (probe u) as [status ms |].
    + destruct ((status =? 200)%Z || (status =? 204)%Z).
      * cbn [fst snd]. destruct (IH (c + 1)%Z (t + ms)) as [H1 H2].
        split.
        -- rewrite H1. cbn [List.length]. lia.
        -- rewrite H2. cbn [ProbeSpec.total]. ring.
      * destruct c, t; apply IH.
    + destruct c, t; apply IH.
Qed.

Lemma battery_count (probe : string -> probe_outcome) :
  fst (fold_left (probe_step probe) test_urls (0%Z, 0))
  = Z.of_nat (List.length (ProbeSpec.successes probe)).
Proof. now rewrite (proj1 (probe_loop probe test_urls 0 0)). Qed.

Lemma battery_total (probe : string -> probe_outcome) :
  snd (fold_left (probe_step probe) test_urls (0%Z, 0))
  == ProbeSpec.total (ProbeSpec.successes probe).
Proof. rewrite (proj2 (probe_loop probe test_urls 0 0)). unfold ProbeSpec.successes. ring. Qed.

(** The record written by one probe cycle. *)
Lemma apply_probe_eq (p : ResidentialProxy) (c : Z) (t : Q) :
  let raw := inject_Z c / inject_Z 3 in
  let avg := if (c =? 0)%Z then PosInf else Finite (t / inject_Z c) in
  let l' := Float.add (Float.mul_pos (latency p) 0.7) (Float.mul_pos avg 0.3) in
  apply_probe p c t
  = (mkProxy (ip p) (port p) (state p) (city p) (isp p) (asn p)
             l' (success_rate p * 0.7 + raw * 0.3) (last_used p)
             (ProbeSpec.classify raw l')
             (protocol p) (username p) (password p),
     Qle_bool 0.5 raw).
Proof.
  cbv zeta. unfold apply_probe, ProbeSpec.classify.
  cbn [test_urls List.length Z.of_nat Pos.of_succ_nat Pos.succ].
  cbn [set_latency set_success_rate latency success_rate].
  destruct (Qle_bool 0.9 _ && _); [reflexivity |].
  destruct (Qle_bool 0.7 _ && _); [reflexivity |].
  destruct (Qle_bool 0.5 _); reflexivity.
Qed.

Lemma health_check_objects (probe : string -> probe_outcome)
    (self : AdvancedProxyRotator) (r : ref) :
  let b := fold_left (probe_step probe) test_urls (0%Z, 0) in
  fst (health_check_proxy probe self r)
  = mkRotator (store (objects self) r (fst (apply_probe (objects self r) (fst b) (snd b))))
              (proxies_by_state self) (proxy_pool self) true.
Proof.
  cbv zeta. unfold health_check_proxy.
  destruct (fold_left (probe_step probe) test_urls (0%Z, 0)) as [c t].
  cbn [objects fst snd].
  destruct (apply_probe (objects self r) c t) as [p ok]. reflexivity.
Qed.

Lemma store_same (objs : ref -> ResidentialProxy) (r : ref) (p : ResidentialProxy) :
  store objs r p r = p.
Proof. unfold store. now rewrite Nat.eqb_refl. Qed.

Lemma store_other (objs : ref -> ResidentialProxy) (r r' : ref) (p : ResidentialProxy) :
  r' <> r -> store objs r p r' = objs r'.
Proof. unfold store. intros H. destruct (Nat.eqb_spec r' r); [contradiction | reflexivity]. Qed.

(** What one probe cycle leaves in the probed record. *)
Lemma health_check_effect (probe : string -> probe_outcome)
    (self : AdvancedProxyRotator) (r : ref) :
  let p := objects self r in
  let p' := objects (fst (health_check_proxy probe self r)) r in
  success_rate p' == ProbeSpec.smooth (success_rate p) (ProbeSpec.rawSuccessRate probe)
  /\ Float.eqv (latency p')
               (ProbeSpec.smooth_latency (latency p) (ProbeSpec.rawLatency probe))
  /\ health p' = ProbeSpec.classify (ProbeSpec.rawSuccessRate probe) (latency p').
Proof.
  cbv zeta. rewrite health_check_objects. cbn [objects].
  rewrite store_same, apply_probe_eq. cbn [fst success_rate latency health].
  rewrite battery_count.
  pose proof (battery_total probe) as Ht.
  unfold ProbeSpec.rawSuccessRate, ProbeSpec.rawLatency, ProbeSpec.attempted.
  cbn [test_urls List.length Z.of_nat Pos.of_succ_nat Pos.succ].
  split; [unfold ProbeSpec.smooth; ring |].
  split; [| reflexivity].
  destruct (ProbeSpec.successes probe) as [| x l] eqn:E.
  - cbn [List.length Z.of_nat Z.eqb].
    destruct (latency (objects self r)); exact I.
  - assert (Hz : (Z.of_nat (List.length (x :: l)) =? 0)%Z = false)
      by (apply Z.eqb_neq; cbn [List.length]; lia).
    rewrite Hz.
    destruct (latency (objects self r)) as [q |]; [| exact I].
    cbn [Float.mul_pos Float.add ProbeSpec.smooth_latency Float.eqv].
    cbn [List.length Z.of_nat].
    unfold ProbeSpec.smooth, Qdiv. rewrite Ht. ring.
Qed.

Lemma smooth_latency_eqv (a a' b b' : xfloat) :
  Float.eqv a a' -> Float.eqv b b' ->
  Float.eqv (ProbeSpec.smooth_latency a b) (ProbeSpec.smooth_latency a' b').
Proof.
  destruct a, a', b, b'; simpl; auto; try contradiction.
  intros H1 H2. unfold ProbeSpec.smooth. now rewrite H1, H2.
Qed.

(** C4, as amended.  After every probe cycle the new health state of the
    endpoint is the classification, thresholds in order (0.9 with 300 ms,
    0.7 with 600 ms, 0.5), of the raw success rate of that cycle
    (successes/attempted, not the smoothed [success_rate]) and of the
    updated, smoothed latency. *)
Theorem health_from_raw_rate (probe : string -> probe_outcome)
    (self : AdvancedProxyRotator) (r : ref) :
  let p' := objects (fst (health_check_proxy probe self r)) r in
  health p' = ProbeSpec.classify (ProbeSpec.rawSuccessRate probe) (latency p').
Proof. apply health_check_effect. Qed.

(** C4 as stated fails: three successes at 50 ms on an endpoint with
    [success_rate = 0.5] and [latency = 200] leave [success_rate = 0.65]
    and [latency = 155], which the thresholds classify as DEGRADED; the
    probe cycle sets EXCELLENT. *)
Lemma health_not_from_smoothed_rate :
  let self := ProbeFixture.half in
  let p' := objects (fst (health_check_proxy ProbeFixture.all_fast self 0%nat)) 0%nat in
  success_rate p' == 0.65
  /\ Float.eqv (latency p') (Finite 155)
  /\ ProbeSpec.classify (success_rate p') (latency p') = DEGRADED
  /\ health p' = EXCELLENT.
Proof. cbv zeta. repeat split. Qed.

(** C7.  A probe cycle takes the raw success rate successes/attempted and
    the raw latency, the mean over the successful probes, and smooths:
    [success_rate' = 0.7*success_rate + 0.3*rawSuccessRate] and
    [latency' = 0.7*latency + 0.3*rawLatency].  With two of three probes
    succeeding at 50 ms and 100 ms on an endpoint with
    [success_rate = 0.5] and [latency = 200], the raw values are 2/3 and
    75, the updated ones 0.55 and 162.5, and the health is DEGRADED. *)
Theorem probe_cycle_smoothing (probe : string -> probe_outcome)
    (self : AdvancedProxyRotator) (r : ref) :
  let p := objects self r in
  let p' := objects (fst (health_check_proxy probe self r)) r in
  (success_rate p' == 0.7 * success_rate p + 0.3 * ProbeSpec.rawSuccessRate probe
   /\ Float.eqv (latency p')
                (ProbeSpec.smooth_latency (latency p) (ProbeSpec.rawLatency probe))
   /\ (forall l raw, latency p = Finite l -> ProbeSpec.rawLatency probe = Finite raw ->
       Float.eqv (latency p') (Finite (0.7 * l + 0.3 * raw))))
  /\ (ProbeSpec.successes probe = [50; 100] ->
      success_rate p == 0.5 ->
      Float.eqv (latency p) (Finite 200) ->
      ProbeSpec.rawSuccessRate probe == 2 # 3
      /\ Float.eqv (ProbeSpec.rawLatency probe) (Finite 75)
      /\ success_rate p' == 0.55
      /\ Float.eqv (latency p') (Finite 162.5)
      /\ health p' = DEGRADED).
Proof.
  cbv zeta.
  destruct (health_check_effect probe self r) as (Hsr & Hlat & Hh).
  split; [split; [exact Hsr | split; [exact Hlat |]] |].
  - intros l raw Hl Hraw. rewrite Hl, Hraw in Hlat. exact Hlat.
  - intros Hs Hp Hl.
    assert (Hraw : ProbeSpec.rawSuccessRate probe == 2 # 3)
      by (unfold ProbeSpec.rawSuccessRate; rewrite Hs; reflexivity).
    assert (Hrl : Float.eqv (ProbeSpec.rawLatency probe) (Finite 75))
      by (unfold ProbeSpec.rawLatency; rewrite Hs; reflexivity).
    assert (Hl' : Float.eqv (latency (objects (fst (health_check_proxy probe self r)) r))
                            (Finite 162.5)).
    { eapply eqv_trans; [exact Hlat |].
      eapply eqv_trans; [apply smooth_latency_eqv; eassumption |].
      reflexivity. }
    repeat split; try assumption.
    + rewrite Hsr. unfold ProbeSpec.smooth. rewrite Hp, Hraw. reflexivity.
    + rewrite Hh, (classify_eqv _ _ _ Hl').
      unfold ProbeSpec.rawSuccessRate. rewrite Hs. reflexivity.
Qed.

Lemma probe_cycle_smoothing_witness :
  let p' := objects (fst (health_check_proxy ProbeFixture.two_of_three
                                             ProbeFixture.half 0%nat)) 0%nat in
  success_rate p' == 0.55 /\ Float.eqv (latency p') (Finite 162.5)
  /\ health p' = DEGRADED.
Proof.
  intros p'.
  assert (Hs : ProbeSpec.successes ProbeFixture.two_of_three = [50; 100]) by reflexivity.
  assert (Hp : success_rate (objects ProbeFixture.half 0%nat) == 0.5) by reflexivity.
  assert (Hl : Float.eqv (latency (objects ProbeFixture.half 0%nat)) (Finite 200))
    by reflexivity.
  destruct (probe_cycle_smoothing ProbeFixture.two_of_three ProbeFixture.half 0%nat)
    as [_ Hscenario].
  destruct (Hscenario Hs Hp Hl) as (_ & _ & H1 & H2 & H3).
  repeat split; assumption.
Defined.

(** ** An infinite latency is absorbing *)

Lemma mark_used_latency (self : AdvancedProxyRotator) (w r : ref) (now : Z) :
  latency (objects (mark_used self w now) r) = latency (objects self r).
Proof.
  destruct (Nat.eq_dec r w) as [-> | Hne].
  - now rewrite mark_used_objects_same.
  - now rewrite mark_used_objects_other.
Qed.

Lemma run_select_cases (self : AdvancedProxyRotator) (target_state : option string)
    (tag : option SchoolBlockerType) (ceiling : xfloat) (now : Z) :
  run (Select target_state tag ceiling now) self = self
  \/ exists w, run (Select target_state tag ceiling now) self = mark_used self w now.
Proof.
  unfold run. rewrite get_optimal_proxy_pick.
  destruct (pick_best_cases self tag now (survivors self target_state ceiling))
    as [[_ Hr] | (w & _ & Hp)].
  - rewrite Hr. now left.
  - rewrite Hp. right. now exists w.
Qed.

Lemma check_infinite_latency (probe : string -> probe_outcome)
    (self : AdvancedProxyRotator) (r : ref) :
  latency (objects self r) = PosInf ->
  let p' := objects (fst (health_check_proxy probe self r)) r in
  latency p' = PosInf /\ health p' <> EXCELLENT /\ health p' <> GOOD.
Proof.
  cbv zeta. intros Hinf.
  pose proof (health_check_effect probe self r) as (_ & _ & Hh).
  assert (Hl : latency (objects (fst (health_check_proxy probe self r)) r) = PosInf).
  { rewrite health_check_objects. cbn [objects].
    rewrite store_same, apply_probe_eq. cbn [fst latency]. now rewrite Hinf. }
  split; [exact Hl |].
  rewrite Hh, Hl. unfold ProbeSpec.classify. rewrite !ltb_inf, !andb_false_r.
  destruct (Qle_bool 0.5 _); split; discriminate.
Qed.

Lemma check_other_object (probe : string -> probe_outcome)
    (self : AdvancedProxyRotator) (r r' : ref) :
  r' <> r -> objects (fst (health_check_proxy probe self r)) r' = objects self r'.
Proof.
  intros Hne. rewrite health_check_objects. cbn [objects]. now apply store_other.
Qed.

(** Every operation keeps an infinite latency infinite and the health
    below GOOD. *)
Lemma run_keeps_infinite (o : operation) (self : AdvancedProxyRotator) (r : ref) :
  latency (objects self r) = PosInf ->
  health (objects self r) <> EXCELLENT ->
  health (objects self r) <> GOOD ->
  latency (objects (run o self) r) = PosInf
  /\ health (objects (run o self) r) <> EXCELLENT
  /\ health (objects (run o self) r) <> GOOD.
Proof.
  intros Hl He Hg. destruct o as [ts tag ceiling now | probe r0].
  - destruct (run_select_cases self ts tag ceiling now) as [-> | [w ->]].
    + auto.
    + rewrite mark_used_latency, mark_used_health. auto.
  - cbn [run]. destruct (Nat.eq_dec r r0) as [-> | Hne].
    + now apply check_infinite_latency.
    + rewrite check_other_object by assumption. auto.
Qed.

Lemma run_all_keeps_infinite (ops : list operation) (self : AdvancedProxyRotator) (r : ref) :
  latency (objects self r) = PosInf ->
  health (objects self r) <> EXCELLENT ->
  health (objects self r) <> GOOD ->
  latency (objects (run_all ops self) r) = PosInf
  /\ health (objects (run_all ops self) r) <> EXCELLENT
  /\ health (objects (run_all ops self) r) <> GOOD.
Proof.
  revert self. induction ops as [| o ops IH]; intros self Hl He Hg.
  - simpl. auto.
  - cbn [run_all fold_left].
    destruct (run_keeps_infinite o self r Hl He Hg) as (Hl' & He' & Hg').
    now apply IH.
Qed.

(** C8.  A probe cycle without a success has the infinity sentinel as raw
    latency and sets the endpoint's latency to infinity.  From then on,
    whatever selections and probe cycles follow, the latency stays
    infinite, the latency score is 0, and the health is never EXCELLENT or
    GOOD again. *)
Theorem zero_success_latency_infinite (probe : string -> probe_outcome)
    (self : AdvancedProxyRotator) (r : ref) (later : list operation) :
  ProbeSpec.successes probe = [] ->
  let after := fst (health_check_proxy probe self r) in
  let final := run_all later after in
  ProbeSpec.rawLatency probe = PosInf
  /\ latency (objects after r) = PosInf
  /\ latency (objects final r) = PosInf
  /\ latency_score (latency (objects final r)) = 0
  /\ health (objects final r) <> EXCELLENT
  /\ health (objects final r) <> GOOD.
Proof.
  intros Hs. cbv zeta.
  assert (Hraw : ProbeSpec.rawLatency probe = PosInf)
    by (unfold ProbeSpec.rawLatency; now rewrite Hs).
  pose proof (health_check_effect probe self r) as (_ & _ & Hh).
  assert (Hl : latency (objects (fst (health_check_proxy probe self r)) r) = PosInf).
  { rewrite health_check_objects. cbn [objects].
    rewrite store_same, apply_probe_eq. cbn [fst latency].
    rewrite battery_count, Hs. cbn [List.length Z.of_nat Z.eqb].
    now destruct (latency (objects self r)). }
  assert (He : health (objects (fst (health_check_proxy probe self r)) r) <> EXCELLENT
               /\ health (objects (fst (health_check_proxy probe self r)) r) <> GOOD).
  { rewrite Hh, Hl. unfold ProbeSpec.classify. rewrite !ltb_inf, !andb_false_r.
    destruct (Qle_bool 0.5 _); split; discriminate. }
  destruct He as [He Hg].
  destruct (run_all_keeps_infinite later _ r Hl He Hg) as (Hl' & He' & Hg').
  repeat split; try assumption.
  now rewrite Hl'.
Qed.

Lemma zero_success_latency_infinite_witness :
  let after := fst (health_check_proxy ProbeFixture.none ProbeFixture.half 0%nat) in
  let final := run_all [Check ProbeFixture.all_fast 0%nat;
                        Select None None default_target_latency 42;
                        Check ProbeFixture.all_fast 0%nat] after in
  latency (objects final 0%nat) = PosInf
  /\ health (objects final 0%nat) <> EXCELLENT
  /\ health (objects final 0%nat) <> GOOD.
Proof.
  assert (Hs : ProbeSpec.successes ProbeFixture.none = []) by reflexivity.
  destruct (zero_success_latency_infinite ProbeFixture.none ProbeFixture.half 0%nat
              [Check ProbeFixture.all_fast 0%nat;
               Select None None default_target_latency 42;
               Check ProbeFixture.all_fast 0%nat] Hs)
    as (_ & _ & Hl & _ & He & Hg).
  repeat split; assumption.
Defined.

(** ** Frames *)

(** C9.  A successful selection leaves the region partitioning and every
    record other than the winner's unchanged, and changes the winner's
    record in its [last_used] field only.  A probe cycle on an endpoint
    leaves the partitioning and every other record unchanged, and changes
    only [latency], [success_rate] and [health] of the probed record: its
    address, port, region, locality, provider, AS number, protocol,
    credentials and [last_used] stay as they were. *)
Theorem selection_and_probe_frames :
  (forall self target_state tag ceiling now self' winner,
      get_optimal_proxy self target_state tag ceiling now = Ok (self', winner) ->
      same_partition self self'
      /\ (forall r, r <> winner -> objects self' r = objects self r)
      /\ objects self' winner = set_last_used (objects self winner) now
      /\ same_identity (objects self winner) (objects self' winner)
      /\ same_metrics (objects self winner) (objects self' winner))
  /\ (forall probe self proxy,
      let self' := fst (health_check_proxy probe self proxy) in
      same_partition self self'
      /\ (forall r, r <> proxy -> objects self' r = objects self r)
      /\ same_identity (objects self proxy) (objects self' proxy)
      /\ last_used (objects self' proxy) = last_used (objects self proxy)).
Proof.
  split.
  - intros self ts tag ceiling now self' winner Hok.
    rewrite get_optimal_proxy_pick in Hok.
    destruct (pick_best_cases self tag now (survivors self ts ceiling))
      as [[_ Hr] | (w & _ & Hp)]; rewrite Hok in *; [discriminate |].
    injection Hp as -> ->.
    split; [split; reflexivity |].
    split; [intros r Hne; now apply mark_used_objects_other |].
    rewrite mark_used_objects_same.
    repeat split.
  - intros probe self proxy. cbv zeta.
    split; [rewrite health_check_objects; split; reflexivity |].
    split; [intros r Hne; now apply check_other_object |].
    rewrite health_check_objects. cbn [objects].
    rewrite store_same, apply_probe_eq. cbn [fst].
    repeat split.
Qed.

Lemma selection_and_probe_frames_witness :
  exists self' winner,
    get_optimal_proxy Fixture.fast_regions (Some "ohio"%string) (Some SECURELY)
                      default_target_latency 42 = Ok (self', winner)
    /\ same_partition Fixture.fast_regions self'
    /\ objects self' winner = set_last_used (objects Fixture.fast_regions winner) 42.
Proof.
  exists (mark_used Fixture.fast_regions 1%nat 42), 1%nat.
  assert (Hok : get_optimal_proxy Fixture.fast_regions (Some "ohio"%string)
                  (Some SECURELY) default_target_latency 42
                = Ok (mark_used Fixture.fast_regions 1%nat 42, 1%nat)) by reflexivity.
  destruct selection_and_probe_frames as [Hsel _].
  destruct (Hsel _ _ _ _ _ _ _ Hok) as (Hpart & _ & Hw & _).
  repeat split; try assumption; apply Hpart.
Defined.

(** ** Tags without tables *)

(** C10.  Four of the ten policy tags (IBOSS, GOGUARDIAN, SECURELY,
    LANSCHOOL) carry provider tables and a latency ceiling of their own.
    Each of the other six has neither: its provider score is 0.5 for every
    endpoint and its ceiling the default 200 ms, so the score and the
    tag-specialised selection under it are those without a tag. *)
Theorem untabled_tags_as_no_tag :
  (forall t, In t tabled_tags \/ In t untabled_tags)
  /\ Forall (fun t => blocker_optimizations t <> None
                      /\ ScoreSpec.preferred t <> [] /\ ScoreSpec.avoided t <> []
                      /\ blocker_latencies t <> None) tabled_tags
  /\ Forall (fun t =>
       blocker_optimizations t = None
       /\ blocker_latencies t = None
       /\ (forall e, _calculate_blocker_score e (Some t) = 0.5
                     /\ score e (Some t) = score e None)
       /\ (forall self target_state now,
             get_proxy_for_school_blocker self t target_state now
             = get_optimal_proxy self target_state None (Finite 200) now))
     untabled_tags.
Proof.
  split; [intros []; simpl; tauto |].
  split.
  - repeat constructor; discriminate.
  - repeat constructor.
Qed.

(** ** Chains *)

Lemma agree_refl (self : AdvancedProxyRotator) : agree self self.
Proof. repeat split. Qed.

Lemma agree_trans (a b c : AdvancedProxyRotator) : agree a b -> agree b c -> agree a c.
Proof.
  intros [[Hp1 Hp2] Hab] [[Hq1 Hq2] Hbc]. split.
  - split; congruence.
  - intros r.
    destruct (Hab r) as [(A1 & A2 & A3 & A4 & A5 & A6 & A7 & A8 & A9) (M1 & M2 & M3)].
    destruct (Hbc r) as [(B1 & B2 & B3 & B4 & B5 & B6 & B7 & B8 & B9) (N1 & N2 & N3)].
    repeat split; congruence.
Qed.

Lemma agree_mark_used (self : AdvancedProxyRotator) (w : ref) (now : Z) :
  agree self (mark_used self w now).
Proof.
  split; [split; reflexivity |].
  intros r. destruct (Nat.eq_dec r w) as [-> | Hne].
  - rewrite mark_used_objects_same. repeat split.
  - rewrite mark_used_objects_other by assumption. repeat split.
Qed.

Lemma agree_score (s s' : AdvancedProxyRotator) (tag : option SchoolBlockerType) (r : ref) :
  agree s s' -> score (objects s' r) tag = score (objects s r) tag.
Proof.
  intros [_ H]. destruct (H r) as [(_ & _ & _ & _ & Hisp & _) (Hl & Hs & Hh)].
  unfold score, _calculate_blocker_score. now rewrite Hisp, Hl, Hs, Hh.
Qed.

Lemma agree_survivors (s s' : AdvancedProxyRotator) (target_state : option string)
    (ceiling : xfloat) :
  agree s s' -> survivors s' target_state ceiling = survivors s target_state ceiling.
Proof.
  intros [[Hb Hp] H]. unfold survivors, candidates. rewrite Hb, Hp.
  assert (Hv : forall l, filter (is_viable s' ceiling) l = filter (is_viable s ceiling) l).
  { intros l. apply filter_ext. intros r. unfold is_viable, healthy.
    destruct (H r) as [_ (Hl & _ & Hh)]. now rewrite Hl, Hh. }
  assert (Hh : forall l, filter (is_healthy s') l = filter (is_healthy s) l).
  { intros l. apply filter_ext. intros r. unfold is_healthy, healthy.
    destruct (H r) as [_ (_ & _ & Hh)]. now rewrite Hh. }
  now rewrite Hv, Hh.
Qed.

Lemma agree_pick_best (s s' : AdvancedProxyRotator) (tag : option SchoolBlockerType)
    (now now' : Z) (l : list ref) (s1 : AdvancedProxyRotator) (r : ref) :
  agree s s' ->
  pick_best s' tag now' l = Ok (s1, r) ->
  pick_best s tag now l = Ok (mark_used s r now, r) /\ s1 = mark_used s' r now'.
Proof.
  intros Ha. unfold pick_best.
  destruct l as [| x l]; [discriminate |].
  assert (Hm : map (fun r0 => (score (objects s' r0) tag, r0)) (x :: l)
               = map (fun r0 => (score (objects s r0) tag, r0)) (x :: l)).
  { apply map_ext. intros a. now rewrite (agree_score s s' tag a Ha). }
  rewrite Hm.
  destruct (sort_desc fst _) as [| [sc best] t]; [discriminate |].
  intros H. injection H as <- <-. split; reflexivity.
Qed.

Lemma agree_select (s0 s : AdvancedProxyRotator) (target_state : option string)
    (tag : option SchoolBlockerType) (ceiling : xfloat) (now : Z)
    (s' : AdvancedProxyRotator) (r : ref) :
  agree s0 s ->
  get_optimal_proxy s target_state tag ceiling now = Ok (s', r) ->
  selected_ref s0 target_state tag ceiling = Some r /\ agree s0 s'.
Proof.
  intros Ha Hok. rewrite get_optimal_proxy_pick in Hok.
  rewrite (agree_survivors s0 s _ _ Ha) in Hok.
  destruct (agree_pick_best s0 s tag 0 now _ s' r Ha Hok) as [H0 ->].
  split.
  - unfold selected_ref. rewrite get_optimal_proxy_pick, H0. reflexivity.
  - eapply agree_trans; [exact Ha | apply agree_mark_used].
Qed.

Lemma selected_ref_in_survivors (self : AdvancedProxyRotator) (target_state : option string)
    (tag : option SchoolBlockerType) (ceiling : xfloat) (r : ref) :
  selected_ref self target_state tag ceiling = Some r ->
  In r (survivors self target_state ceiling).
Proof.
  unfold selected_ref. rewrite get_optimal_proxy_pick.
  destruct (pick_best_cases self tag 0 (survivors self target_state ceiling))
    as [[_ Hr] | (w & Hin & Hp)].
  - rewrite Hr. discriminate.
  - rewrite Hp. intros H. injection H as <-. exact Hin.
Qed.

(** A hop's endpoint belongs to the requested bucket when that bucket
    holds a viable endpoint. *)
Lemma selected_ref_in_bucket (self : AdvancedProxyRotator) (t : string)
    (tag : option SchoolBlockerType) (ceiling : xfloat) (r : ref) (bucket : list ref) :
  selected_ref self (Some t) tag ceiling = Some r ->
  truthy t = true ->
  dict_get (lower t) (proxies_by_state self) = Some bucket ->
  filter (is_viable self ceiling) bucket <> [] ->
  In r bucket.
Proof.
  intros Hsel Ht Hget Hv.
  apply selected_ref_in_survivors in Hsel.
  unfold survivors, candidates in Hsel. rewrite Ht, Hget in Hsel.
  destruct (filter (is_viable self ceiling) bucket) as [| v vs] eqn:E;
    [contradiction |].
  rewrite <- E in Hsel. apply filter_In in Hsel. apply Hsel.
Qed.

Lemma survivors_nonempty (self : AdvancedProxyRotator) (target_state : option string)
    (ceiling : xfloat) (r : ref) :
  In r (proxy_pool self) -> healthy (objects self r) = true ->
  survivors self target_state ceiling <> [].
Proof.
  intros Hin Hh. unfold survivors.
  destruct (filter (is_viable self ceiling) (candidates self target_state));
    [| discriminate].
  intros E.
  assert (Hr : In r (filter (is_healthy self) (proxy_pool self)))
    by (apply filter_In; split; assumption).
  rewrite E in Hr. contradiction.
Qed.

Lemma choice_In {A : Type} (r : nat) (l : list A) (x : A) :
  choice r l = Ok x -> In x l.
Proof.
  unfold choice. destruct l as [| a l]; [discriminate |].
  intros H.
  replace x with (nth (r mod List.length (a :: l)) (a :: l) a) by congruence.
  apply nth_In. apply Nat.mod_upper_bound. discriminate.
Qed.

Lemma choice_nonempty {A : Type} (r : nat) (l : list A) :
  l <> [] -> exists x, choice r l = Ok x.
Proof.
  destruct l as [| a l]; [contradiction |]. intros _. eexists. reflexivity.
Qed.

Lemma selection_first_max_aux (self : AdvancedProxyRotator) (target_state : option string)
    (tag : option SchoolBlockerType) (ceiling : xfloat) (now : Z) :
  survivors self target_state ceiling <> [] ->
  exists best, get_optimal_proxy self target_state tag ceiling now
               = Ok (mark_used self best now, best).
Proof.
  intros Hne. rewrite get_optimal_proxy_pick.
  destruct (pick_best_first_max self tag now _ Hne) as (best & _ & _ & Hp & _).
  now exists best.
Qed.

Lemma agree_states_or_keys (s0 s : AdvancedProxyRotator) (states : option (list string)) :
  agree s0 s -> states_or_keys s states = states_or_keys s0 states.
Proof. intros [[Hb _] _]. unfold states_or_keys. now rewrite Hb. Qed.

(** The loop of the chain builder, hop by hop. *)
Lemma chain_loop_hops (rnd : nat -> nat) (clock : nat -> Z)
    (states : option (list string)) (tag : option SchoolBlockerType)
    (s0 : AdvancedProxyRotator) (todo : nat) :
  forall (i : nat) (s : AdvancedProxyRotator) (chain used : _)
         (s' : AdvancedProxyRotator) (chain' : list ref),
    agree s0 s ->
    chain_loop rnd clock states tag todo i s chain used = Ok (s', chain') ->
    exists targets hops,
      chain' = chain ++ hops
      /\ List.length targets = todo /\ List.length hops = todo
      /\ drawn (states_or_keys s0 states) (keys (proxies_by_state s0)) used targets
      /\ Forall2 (fun t r => selected_ref s0 (Some t) tag default_target_latency = Some r)
                 targets hops
      /\ agree s0 s'.
Proof.
  induction todo as [| todo IH]; intros i s chain used s' chain' Ha Hrun.
  - cbn [chain_loop] in Hrun. injection Hrun as <- <-.
    exists [], []. rewrite app_nil_r. repeat split; try constructor; apply Ha.
  - cbn [chain_loop] in Hrun.
    rewrite (agree_states_or_keys s0 s states Ha) in Hrun.
    assert (Hk : keys (proxies_by_state s) = keys (proxies_by_state s0))
      by (destruct Ha as [[Hb _] _]; now rewrite Hb).
    rewrite Hk in Hrun.
    set (fresh := filter (fun x => negb (str_in x used)) (states_or_keys s0 states)) in *.
    set (available := match fresh with
                      | [] => keys (proxies_by_state s0)
                      | _ :: _ => fresh
                      end) in *.
    destruct (choice (rnd i) available) as [target | e] eqn:Hc; [| discriminate].
    cbn [bind] in Hrun.
    destruct (get_optimal_proxy s (Some target) tag default_target_latency (clock i))
      as [[s1 r] | e] eqn:Hsel; [| discriminate].
    cbn [bind fst snd] in Hrun.
    destruct (agree_select s0 s _ _ _ _ s1 r Ha Hsel) as [Hr Ha1].
    destruct (IH _ _ _ _ _ _ Ha1 Hrun)
      as (targets & hops & Hch & Hlt & Hlh & Hd & Hf & Ha').
    exists (target :: targets), (r :: hops).
    refine (conj _ (conj _ (conj _ (conj (conj _ Hd) (conj _ Ha'))))).
    + rewrite Hch, <- app_assoc. reflexivity.
    + cbn [List.length]. now rewrite Hlt.
    + cbn [List.length]. now rewrite Hlh.
    + apply choice_In in Hc. subst available. fold fresh.
      destruct fresh; exact Hc.
    + constructor; assumption.
Qed.

Lemma chain_loop_returns (rnd : nat -> nat) (clock : nat -> Z)
    (states : option (list string)) (tag : option SchoolBlockerType)
    (s0 : AdvancedProxyRotator) (h : ref) (todo : nat) :
  In h (proxy_pool s0) -> healthy (objects s0 h) = true ->
  keys (proxies_by_state s0) <> [] ->
  forall (i : nat) (s : AdvancedProxyRotator) (chain used : _),
    agree s0 s ->
    exists s' chain', chain_loop rnd clock states tag todo i s chain used = Ok (s', chain').
Proof.
  intros Hin Hh Hkeys.
  induction todo as [| todo IH]; intros i s chain used Ha.
  - eexists _, _. reflexivity.
  - cbn [chain_loop].
    assert (Hk : keys (proxies_by_state s) = keys (proxies_by_state s0))
      by (destruct Ha as [[Hb _] _]; now rewrite Hb).
    rewrite Hk.
    set (fresh := filter (fun x => negb (str_in x used)) (states_or_keys s states)).
    set (available := match fresh with
                      | [] => keys (proxies_by_state s0)
                      | _ :: _ => fresh
                      end).
    assert (Hav : available <> [])
      by (subst available; destruct fresh; [exact Hkeys | discriminate]).
    destruct (choice_nonempty (rnd i) available Hav) as [target ->].
    cbn [bind].
    assert (Hsurv : survivors s (Some target) default_target_latency <> []).
    { rewrite (agree_survivors s0 s _ _ Ha).
      eapply survivors_nonempty; eassumption. }
    destruct (selection_first_max_aux s (Some target) tag default_target_latency
                (clock i) Hsurv) as [best ->].
    cbn [bind fst snd].
    apply IH. eapply agree_trans; [exact Ha | apply agree_mark_used].
Qed.

Lemma drawn_nth (cands all : list string) (targets : list string) :
  forall (used : list string) (j : nat) (t : string),
    drawn cands all used targets ->
    nth_error targets j = Some t ->
    ((exists s, In s cands /\ ~ In s used /\ ~ In s (firstn j targets)) ->
       In t cands /\ ~ In t used /\ ~ In t (firstn j targets))
    /\ ((forall s, In s cands -> In s used \/ In s (firstn j targets)) -> In t all).
Proof.
  induction targets as [| t0 rest IH]; intros used j t Hd Hn.
  - destruct j; discriminate.
  - cbn [drawn] in Hd. destruct Hd as [Ht0 Hrest].
    destruct j as [| j].
    + cbn [nth_error] in Hn. injection Hn as <-. cbn [firstn].
      destruct (filter (fun s => negb (str_in s used)) cands) as [| a av] eqn:E.
      * split.
        -- intros (s & Hs & Hu & _). exfalso.
           assert (Hin : In s (filter (fun s => negb (str_in s used)) cands)).
           { apply filter_In. split; [exact Hs |].
             apply negb_true_iff. now apply str_in_false_iff. }
           rewrite E in Hin. contradiction.
        -- intros _. exact Ht0.
      * rewrite <- E in Ht0. apply filter_In in Ht0. destruct Ht0 as [Hc Hu].
        apply negb_true_iff, str_in_false_iff in Hu.
        split.
        -- intros _. repeat split; auto.
        -- intros Hall. exfalso. destruct (Hall t0 Hc) as [H | []]. contradiction.
    + cbn [nth_error] in Hn. cbn [firstn].
      destruct (IH (t0 :: used) j t Hrest Hn) as [H1 H2].
      split.
      * intros (s & Hs & Hu & Hb).
        destruct H1 as (Hc & Hu' & Hb').
        { exists s. repeat split; [exact Hs | |].
          - intros [-> | H]; [apply Hb; now left | contradiction].
          - intros H. apply Hb. now right. }
        repeat split; [exact Hc | |].
        -- intros H. apply Hu'. now right.
        -- intros [<- | H]; [apply Hu'; now left | contradiction].
      * intros Hall. apply H2. intros s Hs.
        destruct (Hall s Hs) as [H | [<- | H]].
        -- left. now right.
        -- left. now left.
        -- now right.
Qed.

Lemma Forall2_at {A B : Type} (P : A -> B -> Prop) (l1 : list A) (l2 : list B) :
  Forall2 P l1 l2 ->
  forall j a b, nth_error l1 j = Some a -> nth_error l2 j = Some b -> P a b.
Proof.
  induction 1 as [| x y l1 l2 Hxy _ IH]; intros j a b Ha Hb.
  - destruct j; discriminate.
  - destruct j as [| j]; cbn [nth_error] in Ha, Hb.
    + injection Ha as <-. injection Hb as <-. exact Hxy.
    + eapply IH; eassumption.
Qed.

(** C6, as amended.  When the pool holds an endpoint with
    [health >= DEGRADED] and the registry a region, the chain builder
    returns, and a chain it returns has exactly [chain_length] hops.  Hop
    by hop it requests a region: while a candidate region has not been
    requested yet, the request is such a candidate, different from every
    earlier request; once all candidates have been requested, it is any
    region of the registry, and requests may repeat, the call not failing.
    The endpoint of a hop is the selection's answer for the requested
    region: it lies in that region's bucket when the bucket holds an
    endpoint passing the viability filter (health >= DEGRADED, latency at
    most 200 ms), and is the pool-wide fallback's choice otherwise. *)
Theorem chain_requests_fresh_regions (rnd : nat -> nat) (clock : nat -> Z)
    (self : AdvancedProxyRotator) (chain_length : Z)
    (states : option (list string)) (tag : option SchoolBlockerType) :
  let cands := states_or_keys self states in
  let all := keys (proxies_by_state self) in
  ((exists h, In h (proxy_pool self) /\ healthy (objects self h) = true) ->
   all <> [] ->
   exists self' chain,
     rotate_proxy_chain rnd clock self chain_length states tag = Ok (self', chain))
  /\ (forall self' chain,
        rotate_proxy_chain rnd clock self chain_length states tag = Ok (self', chain) ->
        exists targets,
          List.length chain = Z.to_nat chain_length
          /\ List.length targets = Z.to_nat chain_length
          /\ (forall j t, nth_error targets j = Some t ->
                ((exists s, In s cands /\ ~ In s (firstn j targets)) ->
                   In t cands /\ ~ In t (firstn j targets))
                /\ ((forall s, In s cands -> In s (firstn j targets)) -> In t all))
          /\ (forall j t r,
                nth_error targets j = Some t -> nth_error chain j = Some r ->
                selected_ref self (Some t) tag default_target_latency = Some r
                /\ (forall bucket,
                      truthy t = true ->
                      dict_get (lower t) (proxies_by_state self) = Some bucket ->
                      filter (is_viable self default_target_latency) bucket <> [] ->
                      In r bucket))).
Proof.
  cbv zeta. split.
  - intros (h & Hin & Hh) Hkeys. unfold rotate_proxy_chain.
    eapply chain_loop_returns; try eassumption. apply agree_refl.
  - intros self' chain Hrun. unfold rotate_proxy_chain in Hrun.
    destruct (chain_loop_hops rnd clock states tag self _ _ _ _ _ _ _
                (agree_refl self) Hrun)
      as (targets & hops & Hch & Hlt & Hlh & Hd & Hf & _).
    cbn [app] in Hch. subst hops.
    exists targets. split; [exact Hlh |]. split; [exact Hlt |]. split.
    + intros j t Hn.
      destruct (drawn_nth _ _ _ [] j t Hd Hn) as [H1 H2]. split.
      * intros (s & Hs & Hb).
        destruct H1 as (Hc & _ & Hb'); [| split; assumption].
        exists s. repeat split; auto.
      * intros Hall. apply H2. intros s Hs. right. now apply Hall.
    + intros j t r Ht Hr.
      pose proof (Forall2_at _ _ _ Hf j t r Ht Hr) as Hsel.
      cbv beta in Hsel.
      split; [exact Hsel |].
      intros bucket Htr Hget Hv.
      eapply selected_ref_in_bucket; eassumption.
Qed.

Lemma chain_requests_fresh_regions_witness :
  exists self' chain,
    rotate_proxy_chain (fun _ => 0%nat) (fun i => Z.of_nat i) Fixture.fast_regions 3
                       (Some ["ohio"%string]) (Some IBOSS) = Ok (self', chain)
    /\ List.length chain = 3%nat.
Proof.
  destruct (chain_requests_fresh_regions (fun _ => 0%nat) (fun i => Z.of_nat i)
              Fixture.fast_regions 3 (Some ["ohio"%string]) (Some IBOSS))
    as [Hret Hhops].
  destruct Hret as (self' & chain & Hrun).
  - exists 0%nat. split; [now left | reflexivity].
  - discriminate.
  - exists self', chain. split; [exact Hrun |].
    destruct (Hhops self' chain Hrun) as (targets & Hl & _). exact Hl.
Defined.

(** C6 as stated fails: both regions are unused candidates and hold an
    endpoint with [health >= DEGRADED], yet the two hops of the chain are
    the same endpoint of "california". *)
Lemma chain_hops_share_region :
  let self := Fixture.slow_regions in
  states_or_keys self None = ["texas"; "california"]%string
  /\ SelectSpec.fallback self [0%nat] = [0%nat]
  /\ SelectSpec.fallback self [1%nat] = [1%nat]
  /\ exists self',
       rotate_proxy_chain (fun _ => 0%nat) (fun i => Z.of_nat i) self 2 None None
       = Ok (self', [1%nat; 1%nat])
       /\ regions_of self' [1%nat; 1%nat] = ["california"; "california"]%string.
Proof.
  cbv zeta. repeat split.
  eexists. split; reflexivity.
Qed.

(** ** The registry built by the constructor *)

(** Whatever the random draws, the constructor builds 50 buckets of 5
    endpoints each, all of them in the pool of 250, each endpoint in the
    region of its bucket. *)
Lemma init_registry (rand : string -> nat -> draws) :
  registry_wf (init rand) = true
  /\ regions_consistent (init rand) = true
  /\ keys (proxies_by_state (init rand)) = keys states_cities
  /\ forallb (fun kv => (List.length (snd kv) =? 5)%nat) (proxies_by_state (init rand))
     = true
  /\ proxy_pool (init rand) = seq 0 250.
Proof.
  repeat split; vm_compute; reflexivity.
Qed.

(** No operation touches the partitioning, so the invariant of the
    constructor holds in every later state. *)
Lemma run_all_partition (ops : list operation) (self : AdvancedProxyRotator) :
  same_partition self (run_all ops self).
Proof.
  revert self. induction ops as [| o ops IH]; intros self; [split; reflexivity |].
  cbn [run_all fold_left].
  assert (Ho : same_partition self (run o self)).
  { destruct o as [ts tag ceiling now | probe r].
    - destruct (run_select_cases self ts tag ceiling now) as [-> | [w ->]];
        split; reflexivity.
    - cbn [run]. rewrite health_check_objects. split; reflexivity. }
  destruct Ho as [H1 H2]. destruct (IH (run o self)) as [H3 H4].
  split; unfold run_all in *; congruence.
Qed.

Lemma run_all_registry_wf (ops : list operation) (self : AdvancedProxyRotator) :
  registry_wf (run_all ops self) = registry_wf self.
Proof.
  destruct (run_all_partition ops self) as [H1 H2].
  unfold registry_wf. now rewrite H1, H2.
Qed.

(** * Further properties of the rotator *)

(** ** Scores *)

Lemma latency_score_antitone (l l' : xfloat) :
  Float.leb l' l = true -> latency_score l <= latency_score l'.
Proof.
  destruct l as [q |], l' as [q' |]; simpl; intros H; try discriminate.
  - apply Qle_bool_iff in H.
    apply Q.max_le_compat_l. unfold Qdiv.
    assert (q' * / 5000 <= q * / 5000)
      by (apply Qmult_le_compat_r; [assumption | discriminate]).
    lra.
  - apply Q.le_max_l.
Qed.

Lemma blocker_score_by_isp (e e' : ResidentialProxy) (tag : option SchoolBlockerType) :
  isp e' = isp e -> _calculate_blocker_score e' tag = _calculate_blocker_score e tag.
Proof. intros H. unfold _calculate_blocker_score. now rewrite H. Qed.

(** X1.  The score is monotone in the metrics: of two endpoints of the
    same provider, the one that is at least as fast, at least as reliable
    and at least as healthy scores at least as much, under every tag. *)
Theorem better_metrics_never_lower_score (e e' : ResidentialProxy)
    (tag : option SchoolBlockerType) :
  isp e' = isp e ->
  Float.leb (latency e') (latency e) = true ->
  success_rate e <= success_rate e' ->
  (value (health e) <= value (health e'))%Z ->
  score e tag <= score e' tag.
Proof.
  intros Hisp Hl Hs Hh. unfold score.
  rewrite (blocker_score_by_isp e e' tag Hisp).
  pose proof (latency_score_antitone _ _ Hl) as Hls.
  rewrite Zle_Qle in Hh.
  lra.
Qed.

Lemma better_metrics_never_lower_score_witness :
  score (Fixture.endpoint "texas" "Cox" (Finite 300) 0.8 DEGRADED) (Some SECURELY)
  <= score (Fixture.endpoint "ohio" "Cox" (Finite 120) 0.95 GOOD) (Some SECURELY).
Proof.
  apply better_metrics_never_lower_score.
  - reflexivity.
  - reflexivity.
  - discriminate.
  - simpl. lia.
Defined.

(** X2.  A policy tag moves the score of an endpoint by a twentieth at
    most: up by 0.05 for a preferred provider, down by 0.05 for an avoided
    one, and not at all otherwise. *)
Theorem tag_moves_score_by_a_twentieth (e : ResidentialProxy) (t : SchoolBlockerType) :
  (In (isp e) (ScoreSpec.preferred t) -> score e (Some t) == score e None + 0.05)
  /\ (In (isp e) (ScoreSpec.avoided t) -> score e (Some t) == score e None - 0.05)
  /\ (~ In (isp e) (ScoreSpec.preferred t) -> ~ In (isp e) (ScoreSpec.avoided t) ->
      score e (Some t) == score e None)
  /\ score e None - 0.05 <= score e (Some t) <= score e None + 0.05.
Proof.
  unfold score. rewrite !blocker_score_spec.
  unfold ScoreSpec.providerScore.
  destruct (in_dec string_dec (isp e) (ScoreSpec.preferred t)) as [Hp | Hp].
  - repeat split; intros; try contradiction; try lra.
    exfalso. eapply preferred_avoided_disjoint; eassumption.
  - destruct (in_dec string_dec (isp e) (ScoreSpec.avoided t)) as [Ha | Ha];
      repeat split; intros; try contradiction; lra.
Qed.

Lemma tag_moves_score_by_a_twentieth_witness :
  let e := Fixture.endpoint "texas" "Comcast" (Finite 100) 0.9 GOOD in
  score e (Some IBOSS) == score e None + 0.05.
Proof.
  intros e.
  destruct (tag_moves_score_by_a_twentieth e IBOSS) as (Hp & _).
  apply Hp. simpl. now left.
Defined.

(** ** Region hints *)

Lemma lower_ascii_idem (c : ascii) : lower_ascii (lower_ascii c) = lower_ascii c.
Proof. destruct c as [[] [] [] [] [] [] [] []]; reflexivity. Qed.

Lemma lower_idem (s : string) : lower (lower s) = lower s.
Proof.
  induction s as [| c s IH]; [reflexivity |].
  cbn [lower]. now rewrite lower_ascii_idem, IH.
Qed.

Lemma truthy_lower (s : string) : truthy (lower s) = truthy s.
Proof. destruct s; reflexivity. Qed.

Lemma get_optimal_proxy_by_candidates (self : AdvancedProxyRotator)
    (ts ts' : option string) (tag : option SchoolBlockerType) (ceiling : xfloat) (now : Z) :
  candidates self ts = candidates self ts' ->
  get_optimal_proxy self ts tag ceiling now = get_optimal_proxy self ts' tag ceiling now.
Proof. intros H. unfold get_optimal_proxy. now rewrite H. Qed.

(** X3.  The region hint is matched without regard to letter case: a hint
    and its lower-case form select alike, for the plain and for the
    tag-specialised selection. *)
Theorem region_hint_ignores_case (self : AdvancedProxyRotator) (hint : string)
    (tag : option SchoolBlockerType) (t : SchoolBlockerType) (ceiling : xfloat) (now : Z) :
  get_optimal_proxy self (Some hint) tag ceiling now
  = get_optimal_proxy self (Some (lower hint)) tag ceiling now
  /\ get_proxy_for_school_blocker self t (Some hint) now
     = get_proxy_for_school_blocker self t (Some (lower hint)) now.
Proof.
  assert (Hc : candidates self (Some hint) = candidates self (Some (lower hint)))
    by (unfold candidates; now rewrite truthy_lower, lower_idem).
  split.
  - now apply get_optimal_proxy_by_candidates.
  - unfold get_proxy_for_school_blocker. now apply get_optimal_proxy_by_candidates.
Qed.

(** X4.  A hint that names no bucket of the registry, and the empty hint
    even when the registry has a bucket of that name, select from the
    whole pool, as no hint does. *)
Theorem unknown_hint_selects_from_pool (self : AdvancedProxyRotator) (hint : string)
    (tag : option SchoolBlockerType) (ceiling : xfloat) (now : Z) :
  dict_get (lower hint) (proxies_by_state self) = None \/ hint = EmptyString ->
  candidates self (Some hint) = proxy_pool self
  /\ get_optimal_proxy self (Some hint) tag ceiling now
     = get_optimal_proxy self None tag ceiling now.
Proof.
  intros H.
  assert (Hc : candidates self (Some hint) = proxy_pool self).
  { unfold candidates. destruct H as [H | ->]; [| reflexivity].
    rewrite H. now destruct (truthy hint). }
  split; [exact Hc |].
  now apply get_optimal_proxy_by_candidates.
Qed.

Lemma unknown_hint_selects_from_pool_witness :
  get_optimal_proxy Fixture.fast_regions (Some "Atlantis"%string) None
                    default_target_latency 42
  = get_optimal_proxy Fixture.fast_regions None None default_target_latency 42.
Proof.
  apply unknown_hint_selects_from_pool. left. reflexivity.
Defined.

(** ** Selection within the hinted bucket *)

Lemma survivors_of_viable_bucket (self : AdvancedProxyRotator) (hint : string)
    (bucket : list ref) (ceiling : xfloat) :
  truthy hint = true ->
  dict_get (lower hint) (proxies_by_state self) = Some bucket ->
  filter (is_viable self ceiling) bucket <> [] ->
  survivors self (Some hint) ceiling = filter (is_viable self ceiling) bucket.
Proof.
  intros Ht Hget Hne. unfold survivors, candidates. rewrite Ht, Hget.
  destruct (filter (is_viable self ceiling) bucket); [contradiction | reflexivity].
Qed.

Lemma viable_selection (self : AdvancedProxyRotator) (hint : string)
    (bucket : list ref) (tag : option SchoolBlockerType) (ceiling : xfloat) (now : Z) :
  truthy hint = true ->
  dict_get (lower hint) (proxies_by_state self) = Some bucket ->
  (exists r, In r bucket /\ is_viable self ceiling r = true) ->
  exists best,
    get_optimal_proxy self (Some hint) tag ceiling now
    = Ok (mark_used self best now, best)
    /\ In best bucket
    /\ healthy (objects self best) = true
    /\ Float.leb (latency (objects self best)) ceiling = true.
Proof.
  intros Ht Hget (r & Hin & Hv).
  assert (Hne : filter (is_viable self ceiling) bucket <> []).
  { intros E. assert (Hr : In r (filter (is_viable self ceiling) bucket))
      by (apply filter_In; split; assumption).
    rewrite E in Hr. contradiction. }
  rewrite get_optimal_proxy_pick, (survivors_of_viable_bucket _ _ _ _ Ht Hget Hne).
  destruct (pick_best_cases self tag now (filter (is_viable self ceiling) bucket))
    as [[He _] | (best & Hb & Hp)]; [contradiction |].
  exists best. split; [exact Hp |].
  apply filter_In in Hb. destruct Hb as [Hb Hvb].
  unfold is_viable in Hvb. apply andb_true_iff in Hvb.
  repeat split; [exact Hb | apply Hvb | apply Hvb].
Qed.

Lemma regions_consistent_state (self : AdvancedProxyRotator) (k : string)
    (bucket : list ref) (r : ref) :
  regions_consistent self = true ->
  dict_get k (proxies_by_state self) = Some bucket ->
  In r bucket -> state (objects self r) = k.
Proof.
  unfold regions_consistent. intros Hc Hget Hin.
  rewrite forallb_forall in Hc.
  specialize (Hc _ (dict_get_In _ _ _ Hget)). cbn [fst snd] in Hc.
  rewrite forallb_forall in Hc. specialize (Hc r Hin).
  now apply String.eqb_eq in Hc.
Qed.

(** X5.  When the hinted bucket holds an endpoint that passes the
    viability filter, the selection succeeds and returns an endpoint of
    that bucket, with [health >= DEGRADED] and a latency within the
    ceiling; on a registry whose buckets are keyed by the region of their
    endpoints it is an endpoint of the hinted region. *)
Theorem hinted_selection_stays_in_bucket (self : AdvancedProxyRotator) (hint : string)
    (bucket : list ref) (tag : option SchoolBlockerType) (ceiling : xfloat) (now : Z) :
  truthy hint = true ->
  dict_get (lower hint) (proxies_by_state self) = Some bucket ->
  (exists r, In r bucket /\ is_viable self ceiling r = true) ->
  exists best,
    get_optimal_proxy self (Some hint) tag ceiling now
    = Ok (mark_used self best now, best)
    /\ In best bucket
    /\ (value DEGRADED <= value (health (objects self best)))%Z
    /\ Float.leb (latency (objects self best)) ceiling = true
    /\ (regions_consistent self = true -> state (objects self best) = lower hint).
Proof.
  intros Ht Hget Hex.
  destruct (viable_selection self hint bucket tag ceiling now Ht Hget Hex)
    as (best & Hok & Hin & Hh & Hl).
  exists best. repeat split; try assumption.
  - now apply healthy_iff.
  - intros Hc. eapply regions_consistent_state; eassumption.
Qed.

Lemma hinted_selection_stays_in_bucket_witness :
  exists best,
    get_optimal_proxy Fixture.fast_regions (Some "Ohio"%string) (Some SECURELY)
                      default_target_latency 42
    = Ok (mark_used Fixture.fast_regions best 42, best)
    /\ state (objects Fixture.fast_regions best) = "ohio"%string.
Proof.
  assert (Ht : truthy "Ohio" = true) by reflexivity.
  assert (Hget : dict_get (lower "Ohio") (proxies_by_state Fixture.fast_regions)
                 = Some [1%nat]) by reflexivity.
  assert (Hex : exists r, In r [1%nat]
                  /\ is_viable Fixture.fast_regions default_target_latency r = true)
    by (exists 1%nat; split; [now left | reflexivity]).
  destruct (hinted_selection_stays_in_bucket Fixture.fast_regions "Ohio" [1%nat]
              (Some SECURELY) default_target_latency 42 Ht Hget Hex)
    as (best & Hok & _ & _ & _ & Hst).
  exists best. split; [exact Hok |]. apply Hst. reflexivity.
Defined.

(** X6.  The tag-specialised selection runs under the tag's latency
    ceiling: 150 ms for IBOSS, 180 ms for SECURELY, 250 ms for LANSCHOOL
    and 200 ms for every other tag.  Whenever the hinted bucket holds an
    endpoint with [health >= DEGRADED] within that ceiling, the endpoint
    returned is of the bucket and within the ceiling. *)
Theorem tag_ceiling_is_kept (self : AdvancedProxyRotator) (t : SchoolBlockerType)
    (hint : string) (bucket : list ref) (now : Z) :
  truthy hint = true ->
  dict_get (lower hint) (proxies_by_state self) = Some bucket ->
  (exists r, In r bucket /\ is_viable self (tag_ceiling t) r = true) ->
  (forall t', tag_ceiling t' = match t' with
                              | IBOSS => Finite 150
                              | SECURELY => Finite 180
                              | LANSCHOOL => Finite 250
                              | _ => Finite 200
                              end)
  /\ (forall target_state,
        get_proxy_for_school_blocker self t target_state now
        = get_optimal_proxy self target_state (Some t) (tag_ceiling t) now)
  /\ exists best,
       get_proxy_for_school_blocker self t (Some hint) now
       = Ok (mark_used self best now, best)
       /\ In best bucket
       /\ (value DEGRADED <= value (health (objects self best)))%Z
       /\ Float.leb (latency (objects self best)) (tag_ceiling t) = true.
Proof.
  intros Ht Hget Hex.
  split; [intros []; reflexivity |].
  split; [reflexivity |].
  destruct (viable_selection self hint bucket (Some t) (tag_ceiling t) now Ht Hget Hex)
    as (best & Hok & Hin & Hh & Hl).
  exists best. repeat split; try assumption.
  now apply healthy_iff.
Qed.

Lemma tag_ceiling_is_kept_witness :
  exists best,
    get_proxy_for_school_blocker Fixture.fast_regions IBOSS (Some "texas"%string) 42
    = Ok (mark_used Fixture.fast_regions best 42, best)
    /\ Float.leb (latency (objects Fixture.fast_regions best)) (Finite 150) = true.
Proof.
  assert (Ht : truthy "texas" = true) by reflexivity.
  assert (Hget : dict_get (lower "texas") (proxies_by_state Fixture.fast_regions)
                 = Some [0%nat]) by reflexivity.
  assert (Hex : exists r, In r [0%nat]
                  /\ is_viable Fixture.fast_regions (tag_ceiling IBOSS) r = true)
    by (exists 0%nat; split; [now left | reflexivity]).
  destruct (tag_ceiling_is_kept Fixture.fast_regions IBOSS "texas" [0%nat] 42
              Ht Hget Hex) as (_ & _ & best & Hok & _ & _ & Hl).
  exists best. split; assumption.
Defined.

(** ** Repeated selections *)

Lemma agree_sym (a b : AdvancedProxyRotator) : agree a b -> agree b a.
Proof.
  intros [[Hp1 Hp2] H]. split; [split; congruence |].
  intros r.
  destruct (H r) as [(A1 & A2 & A3 & A4 & A5 & A6 & A7 & A8 & A9) (M1 & M2 & M3)].
  repeat split; congruence.
Qed.

Lemma run_all_selects_agree (ops : list operation) (self : AdvancedProxyRotator) :
  forallb is_select ops = true -> agree self (run_all ops self).
Proof.
  revert self. induction ops as [| o ops IH]; intros self Hs; [apply agree_refl |].
  cbn [forallb] in Hs. apply andb_true_iff in Hs. destruct Hs as [Ho Hs].
  cbn [run_all fold_left].
  eapply agree_trans; [| apply (IH _ Hs)].
  destruct o as [ts tag ceiling now | probe r]; [| discriminate].
  destruct (run_select_cases self ts tag ceiling now) as [-> | [w ->]];
    [apply agree_refl | apply agree_mark_used].
Qed.

Lemma selection_on_agreeing (s0 s : AdvancedProxyRotator) (ts : option string)
    (tag : option SchoolBlockerType) (ceiling : xfloat) (now now' : Z)
    (s1 : AdvancedProxyRotator) (r : ref) :
  agree s0 s ->
  get_optimal_proxy s0 ts tag ceiling now = Ok (s1, r) ->
  get_optimal_proxy s ts tag ceiling now' = Ok (mark_used s r now', r).
Proof.
  intros Ha Hok. rewrite get_optimal_proxy_pick in *.
  rewrite (agree_survivors s0 s _ _ Ha).
  apply agree_sym in Ha.
  now destruct (agree_pick_best s s0 tag now' now _ s1 r Ha Hok) as [H _].
Qed.

(** X7.  Selection does not rotate: after a successful selection, any
    number of further selections later, the same request is answered with
    the same endpoint again.  Only a probe cycle can change the answer. *)
Theorem selection_does_not_rotate (self : AdvancedProxyRotator) (ts : option string)
    (tag : option SchoolBlockerType) (ceiling : xfloat) (now now' : Z)
    (self1 : AdvancedProxyRotator) (winner : ref) (between : list operation) :
  get_optimal_proxy self ts tag ceiling now = Ok (self1, winner) ->
  forallb is_select between = true ->
  get_optimal_proxy (run_all between self1) ts tag ceiling now'
  = Ok (mark_used (run_all between self1) winner now', winner).
Proof.
  intros Hok Hsel.
  assert (Ha : agree self self1).
  { pose proof Hok as Hok'. rewrite get_optimal_proxy_pick in Hok'.
    destruct (pick_best_cases self tag now (survivors self ts ceiling))
      as [[_ Hr] | (w & _ & Hp)]; rewrite Hok' in *; [discriminate |].
    injection Hp as -> ->. apply agree_mark_used. }
  eapply selection_on_agreeing; [| exact Hok].
  eapply agree_trans; [exact Ha | now apply run_all_selects_agree].
Qed.

Lemma selection_does_not_rotate_witness :
  let self1 := mark_used Fixture.fast_regions 1%nat 1 in
  let between := [Select (Some "texas"%string) (Some IBOSS) default_target_latency 2;
                  Select None None default_target_latency 3] in
  get_optimal_proxy (run_all between self1) None None default_target_latency 4
  = Ok (mark_used (run_all between self1) 1%nat 4, 1%nat).
Proof.
  intros self1 between.
  apply (selection_does_not_rotate Fixture.fast_regions None None
           default_target_latency 1 4 self1 1%nat between); reflexivity.
Defined.

(** ** What a chain writes and how it fails *)

Lemma get_optimal_proxy_ok (self : AdvancedProxyRotator) (ts : option string)
    (tag : option SchoolBlockerType) (ceiling : xfloat) (now : Z)
    (self' : AdvancedProxyRotator) (r : ref) :
  get_optimal_proxy self ts tag ceiling now = Ok (self', r) ->
  self' = mark_used self r now /\ In r (survivors self ts ceiling).
Proof.
  rewrite get_optimal_proxy_pick.
  destruct (pick_best_cases self tag now (survivors self ts ceiling))
    as [[_ Hr] | (w & Hin & Hp)]; rewrite ?Hr, ?Hp; [discriminate |].
  intros H. injection H as <- <-. split; [reflexivity | exact Hin].
Qed.

Lemma chain_loop_stamps (rnd : nat -> nat) (clock : nat -> Z)
    (states : option (list string)) (tag : option SchoolBlockerType) (todo : nat) :
  forall (i : nat) (s : AdvancedProxyRotator) (chain : list ref) (used : list string)
         (s' : AdvancedProxyRotator) (chain' : list ref),
    chain_loop rnd clock states tag todo i s chain used = Ok (s', chain') ->
    exists hops,
      chain' = chain ++ hops
      /\ (forall r, ~ In r hops -> objects s' r = objects s r)
      /\ (forall r, In r hops ->
            exists j, (i <= j < i + todo)%nat
                      /\ objects s' r = set_last_used (objects s r) (clock j)).
Proof.
  induction todo as [| todo IH]; intros i s chain used s' chain' Hrun.
  - cbn [chain_loop] in Hrun. injection Hrun as <- <-.
    exists []. rewrite app_nil_r.
    split; [reflexivity |]. split; [reflexivity | intros r []].
  - cbn [chain_loop] in Hrun.
    destruct (choice (rnd i) _) as [target | e]; [| discriminate].
    cbn [bind] in Hrun.
    destruct (get_optimal_proxy s (Some target) tag default_target_latency (clock i))
      as [[s1 r0] | e] eqn:Hsel; [| discriminate].
    cbn [bind fst snd] in Hrun.
    apply get_optimal_proxy_ok in Hsel. destruct Hsel as [-> _].
    destruct (IH _ _ _ _ _ _ Hrun) as (hops & Hch & Hout & Hin).
    exists (r0 :: hops). split; [rewrite Hch, <- app_assoc; reflexivity |]. split.
    + intros r Hr.
      rewrite Hout by (intros H; apply Hr; now right).
      apply mark_used_objects_other. intros ->. apply Hr. now left.
    + intros r Hr.
      destruct (in_dec Nat.eq_dec r hops) as [Hh | Hh].
      * destruct (Hin r Hh) as (j & Hj & Hobj).
        exists j. split; [lia |]. rewrite Hobj.
        destruct (Nat.eq_dec r r0) as [-> | Hne].
        -- rewrite mark_used_objects_same. reflexivity.
        -- now rewrite mark_used_objects_other.
      * destruct Hr as [<- | Hr]; [| contradiction].
        exists i. split; [lia |].
        rewrite (Hout r0 Hh). apply mark_used_objects_same.
Qed.

Lemma Forall2_In_r {A B : Type} (P : A -> B -> Prop) (l1 : list A) (l2 : list B) :
  Forall2 P l1 l2 -> forall b, In b l2 -> exists a, In a l1 /\ P a b.
Proof.
  induction 1 as [| x y l1 l2 Hxy _ IH]; intros b Hb; [contradiction |].
  destruct Hb as [<- | Hb].
  - exists x. split; [now left | exact Hxy].
  - destruct (IH b Hb) as (a & Ha & Hp). exists a. split; [now right | exact Hp].
Qed.

(** X8.  A chain that is returned has written nothing but [last_used]
    stamps: the partitioning is unchanged, every endpoint outside the
    chain is unchanged, every endpoint of the chain differs from its
    former record only by a [last_used] read at one of the hops, and every
    endpoint of the chain has [health >= DEGRADED]. *)
Theorem chain_writes_only_stamps (rnd : nat -> nat) (clock : nat -> Z)
    (self : AdvancedProxyRotator) (chain_length : Z)
    (states : option (list string)) (tag : option SchoolBlockerType)
    (self' : AdvancedProxyRotator) (chain : list ref) :
  rotate_proxy_chain rnd clock self chain_length states tag = Ok (self', chain) ->
  same_partition self self'
  /\ (forall r, ~ In r chain -> objects self' r = objects self r)
  /\ (forall r, In r chain ->
        exists hop, (hop < Z.to_nat chain_length)%nat
                    /\ objects self' r = set_last_used (objects self r) (clock hop))
  /\ (forall r, In r chain ->
        (value DEGRADED <= value (health (objects self' r)))%Z).
Proof.
  intros Hrun. unfold rotate_proxy_chain in Hrun.
  destruct (chain_loop_hops rnd clock states tag self _ _ _ _ _ _ _
              (agree_refl self) Hrun)
    as (targets & hops & Hch & _ & _ & _ & Hf & Ha).
  destruct (chain_loop_stamps rnd clock states tag _ _ _ _ _ _ _ Hrun)
    as (hops' & Hch' & Hout & Hin).
  cbn [app] in Hch, Hch'. subst hops hops'.
  split; [apply Ha |]. split; [exact Hout |]. split.
  - intros r Hr. destruct (Hin r Hr) as (j & Hj & Hobj).
    exists j. split; [lia | exact Hobj].
  - intros r Hr.
    destruct (Forall2_In_r _ _ _ Hf r Hr) as (t & _ & Hsel).
    apply selected_ref_in_survivors, survivors_healthy, healthy_iff in Hsel.
    destruct Ha as [_ Ha]. destruct (Ha r) as [_ (_ & _ & Hh)].
    now rewrite Hh.
Qed.

Lemma chain_writes_only_stamps_witness :
  exists self' chain,
    rotate_proxy_chain (fun _ => 0%nat) (fun i => Z.of_nat i) Fixture.fast_regions 2
                       None (Some GOGUARDIAN) = Ok (self', chain)
    /\ same_partition Fixture.fast_regions self'.
Proof.
  destruct (rotate_proxy_chain (fun _ => 0%nat) (fun i => Z.of_nat i)
              Fixture.fast_regions 2 None (Some GOGUARDIAN))
    as [[self' chain] | e] eqn:Hrun; [| vm_compute in Hrun; discriminate Hrun].
  exists self', chain. split; [reflexivity |].
  apply (chain_writes_only_stamps _ _ _ _ _ _ _ _ Hrun).
Defined.

(** X9.  The edges of the chain builder.  A hop count of zero or less
    gives the empty chain and leaves the registry as it is.  With a hop to
    make, a registry without regions and no candidate list fails with the
    index error of a choice from an empty sequence; a registry with
    regions whose pool has no endpoint of [health >= DEGRADED] fails on
    the first hop with the no-viable-proxies exception. *)
Theorem chain_edges (rnd : nat -> nat) (clock : nat -> Z)
    (self : AdvancedProxyRotator) (chain_length : Z)
    (states : option (list string)) (tag : option SchoolBlockerType) :
  ((chain_length <= 0)%Z ->
   rotate_proxy_chain rnd clock self chain_length states tag = Ok (self, []))
  /\ ((1 <= chain_length)%Z ->
      proxies_by_state self = [] -> states = None \/ states = Some [] ->
      rotate_proxy_chain rnd clock self chain_length states tag = Raise IndexError)
  /\ ((1 <= chain_length)%Z ->
      proxies_by_state self <> [] -> registry_wf self = true ->
      (forall r, In r (proxy_pool self) -> healthy (objects self r) = false) ->
      rotate_proxy_chain rnd clock self chain_length states tag
      = Raise NoViableProxies).
Proof.
  unfold rotate_proxy_chain. split; [| split].
  - intros Hn. replace (Z.to_nat chain_length) with 0%nat by lia. reflexivity.
  - intros Hn Hnone Hst.
    destruct (Z.to_nat chain_length) as [| m] eqn:E; [lia |].
    cbn [chain_loop]. unfold states_or_keys. rewrite Hnone.
    destruct Hst as [-> | ->]; reflexivity.
  - intros Hn Hreg Hwf Hun.
    destruct (Z.to_nat chain_length) as [| m] eqn:E; [lia |].
    cbn [chain_loop].
    set (fresh := filter _ (states_or_keys self states)).
    set (available := match fresh with
                      | [] => keys (proxies_by_state self)
                      | _ :: _ => fresh
                      end).
    assert (Hav : available <> []).
    { subst available. destruct fresh; [| discriminate].
      destruct (proxies_by_state self); [contradiction | discriminate]. }
    destruct (choice_nonempty (rnd 0%nat) available Hav) as [target ->].
    cbn [bind].
    rewrite get_optimal_proxy_pick.
    apply registry_wf_buckets in Hwf.
    rewrite (proj2 (survivors_nil_iff self (Some target) default_target_latency Hwf) Hun).
    reflexivity.
Qed.

Lemma chain_edges_witness :
  rotate_proxy_chain (fun _ => 0%nat) (fun i => Z.of_nat i) Fixture.all_dead 3
                     (Some ["texas"%string]) None = Raise NoViableProxies.
Proof.
  destruct (chain_edges (fun _ => 0%nat) (fun i => Z.of_nat i) Fixture.all_dead 3
              (Some ["texas"%string]) None) as (_ & _ & Hdead).
  apply Hdead.
  - lia.
  - discriminate.
  - reflexivity.
  - intros r [<- | [<- | []]]; reflexivity.
Defined.

(** ** Probe cycles: health and return value *)

Lemma health_check_result (probe : string -> probe_outcome)
    (self : AdvancedProxyRotator) (r : ref) :
  snd (health_check_proxy probe self r) = Qle_bool 0.5 (ProbeSpec.rawSuccessRate probe).
Proof.
  unfold health_check_proxy.
  pose proof (battery_count probe) as Hc.
  destruct (fold_left (probe_step probe) test_urls (0%Z, 0)) as [c t].
  cbn [fst] in Hc. cbn [objects].
  rewrite apply_probe_eq. cbn [snd]. now rewrite Hc.
Qed.

Lemma classify_healthy (s : Q) (l : xfloat) :
  (value DEGRADED <=? value (ProbeSpec.classify s l))%Z = Qle_bool 0.5 s
  /\ ProbeSpec.classify s l <> DEAD.
Proof.
  unfold ProbeSpec.classify.
  destruct (Qle_bool 0.9 s) eqn:E9.
  - apply Qle_bool_iff in E9.
    assert (H5 : Qle_bool 0.5 s = true) by (apply Qle_bool_iff; lra).
    assert (H7 : Qle_bool 0.7 s = true) by (apply Qle_bool_iff; lra).
    rewrite H5, H7.
    destruct (Float.ltb l (Finite 300)); [split; [reflexivity | discriminate] |].
    destruct (Float.ltb l (Finite 600)); split; (reflexivity || discriminate).
  - cbn [andb].
    destruct (Qle_bool 0.7 s) eqn:E7.
    + apply Qle_bool_iff in E7.
      assert (H5 : Qle_bool 0.5 s = true) by (apply Qle_bool_iff; lra).
      rewrite H5.
      destruct (Float.ltb l (Finite 600)); split; (reflexivity || discriminate).
    + cbn [andb]. destruct (Qle_bool 0.5 s); split; (reflexivity || discriminate).
Qed.

(** X10.  The boolean a probe cycle returns says whether the endpoint has
    just been classified [DEGRADED] or better, and a probe cycle never
    classifies an endpoint as [DEAD]. *)
Theorem check_returns_new_health (probe : string -> probe_outcome)
    (self : AdvancedProxyRotator) (r : ref) :
  let after := health_check_proxy probe self r in
  snd after = healthy (objects (fst after) r)
  /\ health (objects (fst after) r) <> DEAD.
Proof.
  cbv zeta.
  destruct (health_check_effect probe self r) as (_ & _ & Hh).
  rewrite health_check_result. unfold healthy. rewrite Hh.
  destruct (classify_healthy (ProbeSpec.rawSuccessRate probe)
              (latency (objects (fst (health_check_proxy probe self r)) r)))
    as [H1 H2].
  split; [now rewrite H1 | exact H2].
Qed.

Lemma successes_of_length (probe : string -> probe_outcome) (urls : list string) :
  (List.length (ProbeSpec.successes_of probe urls) <= List.length urls)%nat.
Proof.
  induction urls as [| u urls IH]; [apply Nat.le_refl |].
  cbn [ProbeSpec.successes_of List.length].
  destruct (ProbeSpec.succeeded (probe u)); cbn [List.length]; lia.
Qed.

(** X11.  With its three probes a cycle classifies by the number of
    successes: all three are needed for EXCELLENT (new latency under
    300 ms) or GOOD (under 600 ms), and give DEGRADED at a slower latency;
    exactly two always give DEGRADED; one or none give POOR.  The cycle
    reports success from two successes on. *)
Theorem health_by_success_count (probe : string -> probe_outcome)
    (self : AdvancedProxyRotator) (r : ref) :
  let k := List.length (ProbeSpec.successes probe) in
  let after := health_check_proxy probe self r in
  let p' := objects (fst after) r in
  (k <= 3)%nat
  /\ (k = 3%nat ->
      health p' = if Float.ltb (latency p') (Finite 300) then EXCELLENT
                  else if Float.ltb (latency p') (Finite 600) then GOOD
                  else DEGRADED)
  /\ (k = 2%nat -> health p' = DEGRADED)
  /\ ((k < 2)%nat -> health p' = POOR)
  /\ snd after = (2 <=? k)%nat.
Proof.
  cbv zeta.
  destruct (health_check_effect probe self r) as (_ & _ & Hh).
  rewrite health_check_result, Hh.
  pose proof (successes_of_length probe test_urls) as Hk.
  fold (ProbeSpec.successes probe) in Hk. cbn [test_urls List.length] in Hk.
  unfold ProbeSpec.rawSuccessRate, ProbeSpec.classify, ProbeSpec.attempted.
  destruct (List.length (ProbeSpec.successes probe)) as [| [| [| [| k]]]];
    [| | | | lia];
    (split; [lia |]); repeat split; intros; try lia; try discriminate; reflexivity.
Qed.

Lemma health_by_success_count_witness :
  health (objects (fst (health_check_proxy ProbeFixture.two_of_three
                                           ProbeFixture.half 0%nat)) 0%nat)
  = DEGRADED.
Proof.
  destruct (health_by_success_count ProbeFixture.two_of_three ProbeFixture.half 0%nat)
    as (_ & _ & H2 & _).
  apply H2. reflexivity.
Defined.

Lemma health_check_latency (probe : string -> probe_outcome)
    (self : AdvancedProxyRotator) (r : ref) :
  let k := Z.of_nat (List.length (ProbeSpec.successes probe)) in
  let t := snd (fold_left (probe_step probe) test_urls (0%Z, 0)) in
  latency (objects (fst (health_check_proxy probe self r)) r)
  = Float.add (Float.mul_pos (latency (objects self r)) 0.7)
              (Float.mul_pos (if (k =? 0)%Z then PosInf else Finite (t / inject_Z k)) 0.3).
Proof.
  cbv zeta. rewrite health_check_objects. cbn [objects].
  rewrite store_same, apply_probe_eq. cbn [fst latency].
  now rewrite battery_count.
Qed.

(** X12.  A probe cycle leaves an infinite latency exactly when the
    latency was infinite before or no probe of the cycle succeeded; a
    finite latency stays finite through every cycle with a success. *)
Theorem latency_infinite_iff (probe : string -> probe_outcome)
    (self : AdvancedProxyRotator) (r : ref) :
  latency (objects (fst (health_check_proxy probe self r)) r) = PosInf
  <-> latency (objects self r) = PosInf \/ ProbeSpec.successes probe = [].
Proof.
  rewrite health_check_latency.
  destruct (ProbeSpec.successes probe) as [| x l].
  - cbn [List.length Z.of_nat Z.eqb].
    destruct (latency (objects self r)); simpl; split; auto.
  - assert (Hz : (Z.of_nat (List.length (x :: l)) =? 0)%Z = false)
      by (apply Z.eqb_neq; cbn [List.length]; lia).
    rewrite Hz.
    destruct (latency (objects self r)); simpl; split; auto.
    + discriminate.
    + intros [H | H]; discriminate.
Qed.

(** ** Metrics stay in range *)

Lemma score_range (p : ResidentialProxy) (tag : option SchoolBlockerType) :
  valid_metrics p -> 0 <= score p tag <= 1.
Proof.
  intros [Hs Hl]. unfold score.
  pose proof (latency_score_range (latency p) Hl).
  pose proof (blocker_score_range p tag).
  pose proof (health_value_range (health p)).
  split; lra.
Qed.

Lemma successes_nonneg (probe : string -> probe_outcome) (urls : list string) :
  nonneg_probe probe -> 0 <= ProbeSpec.total (ProbeSpec.successes_of probe urls).
Proof.
  intros Hp. induction urls as [| u urls IH]; [apply Qle_refl |].
  cbn [ProbeSpec.successes_of]. specialize (Hp u).
  unfold ProbeSpec.succeeded.
  destruct (probe u) as [status ms |]; [| exact IH].
  destruct ((status =? 200)%Z || (status =? 204)%Z); [| exact IH].
  cbn [ProbeSpec.total]. lra.
Qed.

Lemma raw_rate_range (probe : string -> probe_outcome) :
  0 <= ProbeSpec.rawSuccessRate probe <= 1.
Proof.
  unfold ProbeSpec.rawSuccessRate, ProbeSpec.attempted.
  pose proof (successes_of_length probe test_urls) as Hk.
  fold (ProbeSpec.successes probe) in Hk. cbn [test_urls List.length] in Hk.
  cbn [test_urls List.length].
  destruct (List.length (ProbeSpec.successes probe)) as [| [| [| [| k]]]];
    [| | | | lia]; split; discriminate.
Qed.

Lemma raw_latency_nonneg (probe : string -> probe_outcome) :
  nonneg_probe probe -> Float.leb (Finite 0) (ProbeSpec.rawLatency probe) = true.
Proof.
  intros Hp. unfold ProbeSpec.rawLatency.
  pose proof (successes_nonneg probe test_urls Hp) as Ht.
  fold (ProbeSpec.successes probe) in Ht.
  destruct (ProbeSpec.successes probe) as [| x l]; [reflexivity |].
  cbn [Float.leb]. apply Qle_bool_iff.
  unfold Qdiv. apply Qmult_le_0_compat; [exact Ht |].
  apply Qinv_le_0_compat. rewrite <- (Zle_Qle 0). lia.
Qed.

Lemma check_keeps_valid (probe : string -> probe_outcome)
    (self : AdvancedProxyRotator) (r : ref) :
  nonneg_probe probe ->
  valid_metrics (objects self r) ->
  valid_metrics (objects (fst (health_check_proxy probe self r)) r).
Proof.
  intros Hp [Hs Hl].
  destruct (health_check_effect probe self r) as (Hsr & Hlat & _).
  pose proof (raw_rate_range probe) as Hraw.
  pose proof (raw_latency_nonneg probe Hp) as Hrl.
  split.
  - rewrite Hsr. unfold ProbeSpec.smooth. split; lra.
  - rewrite (leb_eqv_r _ _ _ Hlat).
    destruct (latency (objects self r)) as [a |], (ProbeSpec.rawLatency probe) as [b |];
      try reflexivity.
    cbn [Float.leb ProbeSpec.smooth_latency] in *.
    apply Qle_bool_iff in Hl, Hrl. apply Qle_bool_iff.
    unfold ProbeSpec.smooth. lra.
Qed.

Lemma run_keeps_valid (o : operation) (self : AdvancedProxyRotator) :
  timed_operation o ->
  (forall r, valid_metrics (objects self r)) ->
  forall r, valid_metrics (objects (run o self) r).
Proof.
  intros Ho Hv r. destruct o as [ts tag ceiling now | probe r0].
  - destruct (run_select_cases self ts tag ceiling now) as [-> | [w ->]];
      [apply Hv |].
    destruct (agree_mark_used self w now) as [_ Ha].
    destruct (Ha r) as [_ (Hl & Hs & _)].
    unfold valid_metrics. rewrite Hl, Hs. apply Hv.
  - cbn [run]. destruct (Nat.eq_dec r r0) as [-> | Hne].
    + apply check_keeps_valid; [exact Ho | apply Hv].
    + rewrite check_other_object by assumption. apply Hv.
Qed.

(** X13.  The ranges of the metrics are an invariant: when every record
    has [success_rate] in [0,1] and a non-negative latency, the same
    holds after any sequence of selections and probe cycles whose elapsed
    times are not negative, and every score is then within [0,1]. *)
Theorem metrics_stay_in_range (ops : list operation) (self : AdvancedProxyRotator) :
  (forall r, valid_metrics (objects self r)) ->
  Forall timed_operation ops ->
  forall r tag,
    valid_metrics (objects (run_all ops self) r)
    /\ 0 <= score (objects (run_all ops self) r) tag <= 1.
Proof.
  revert self. induction ops as [| o ops IH]; intros self Hv Hops r tag.
  - cbn. split; [apply Hv | apply score_range, Hv].
  - inversion Hops as [| o' ops' Ho Hrest]; subst.
    cbn [run_all fold_left]. apply IH; [| exact Hrest].
    now apply run_keeps_valid.
Qed.

Lemma metrics_stay_in_range_witness :
  let final := run_all [Check ProbeFixture.two_of_three 0%nat;
                        Select None (Some IBOSS) default_target_latency 42;
                        Check ProbeFixture.none 0%nat] ProbeFixture.half in
  0 <= score (objects final 0%nat) (Some IBOSS) <= 1.
Proof.
  intros final.
  assert (Hv : forall r, valid_metrics (objects ProbeFixture.half r)).
  { intros r. split; [split; discriminate | reflexivity]. }
  assert (Hops : Forall timed_operation
                   [Check ProbeFixture.two_of_three 0%nat;
                    Select None (Some IBOSS) default_target_latency 42;
                    Check ProbeFixture.none 0%nat]).
  { repeat constructor; intros url; unfold ProbeFixture.two_of_three;
      repeat match goal with |- context [String.eqb ?a ?b] =>
        destruct (String.eqb a b) end; try exact I; discriminate. }
  apply (metrics_stay_in_range _ _ Hv Hops 0%nat (Some IBOSS)).
Defined.

(** ** Convergence of the smoothing *)

Lemma retained_range (n : nat) : 0 < retained n <= 1.
Proof.
  induction n as [| n IH]; cbn [retained]; [split; [reflexivity | discriminate] |].
  split; lra.
Qed.

(** X14.  Probe cycles that all succeed at one latency [L] drive the
    metrics geometrically to their targets: after [n] cycles the latency
    is [L + 0.7^n * (l0 - L)] and the success rate is
    [1 - 0.7^n * (1 - s0)], the retained share [0.7^n] shrinking with
    every cycle. *)
Theorem smoothing_converges (n : nat) (probe : string -> probe_outcome)
    (self : AdvancedProxyRotator) (r : ref) (L l0 : Q) :
  ProbeSpec.successes probe = [L; L; L] ->
  latency (objects self r) = Finite l0 ->
  let p := objects self r in
  let p_n := objects (repeat_check n probe self r) r in
  Float.eqv (latency p_n) (Finite (L + retained n * (l0 - L)))
  /\ success_rate p_n == 1 - retained n * (1 - success_rate p)
  /\ 0 < retained (S n) < retained n.
Proof.
  intros Hs Hl0. cbv zeta.
  assert (Hraw : ProbeSpec.rawSuccessRate probe == 1)
    by (unfold ProbeSpec.rawSuccessRate; rewrite Hs; reflexivity).
  assert (Hrl : Float.eqv (ProbeSpec.rawLatency probe) (Finite L)).
  { unfold ProbeSpec.rawLatency. rewrite Hs.
    cbn [ProbeSpec.total List.length Z.of_nat Float.eqv Pos.of_succ_nat Pos.succ].
    field. }
  split; [| split].
  - induction n as [| n IH]; cbn [repeat_check retained].
    + rewrite Hl0. cbn [Float.eqv]. ring.
    + destruct (health_check_effect probe (repeat_check n probe self r) r)
        as (_ & Hlat & _).
      eapply eqv_trans; [exact Hlat |].
      eapply eqv_trans; [apply smooth_latency_eqv; [exact IH | exact Hrl] |].
      cbn [ProbeSpec.smooth_latency Float.eqv]. unfold ProbeSpec.smooth. ring.
  - induction n as [| n IH]; cbn [repeat_check retained].
    + ring.
    + destruct (health_check_effect probe (repeat_check n probe self r) r)
        as (Hsr & _ & _).
      rewrite Hsr. unfold ProbeSpec.smooth. rewrite IH, Hraw. ring.
  - pose proof (retained_range n). cbn [retained]. split; lra.
Qed.

Lemma smoothing_converges_witness :
  Float.eqv (latency (objects (repeat_check 2 ProbeFixture.all_fast
                                            ProbeFixture.half 0%nat) 0%nat))
            (Finite 123.5).
Proof.
  assert (Hs : ProbeSpec.successes ProbeFixture.all_fast = [50; 50; 50]) by reflexivity.
  assert (Hl : latency (objects ProbeFixture.half 0%nat) = Finite 200) by reflexivity.
  destruct (smoothing_converges 2 ProbeFixture.all_fast ProbeFixture.half 0%nat
              50 200 Hs Hl) as (Hlat & _).
  eapply eqv_trans; [exact Hlat | reflexivity].
Defined.

(** ** Probe cycles on different endpoints *)

(** X15.  Probe cycles on two different endpoints commute: in either
    order they leave the same records and the same partitioning, and each
    returns the same boolean. *)
Theorem checks_commute (probe1 probe2 : string -> probe_outcome)
    (self : AdvancedProxyRotator) (r1 r2 : ref) :
  r1 <> r2 ->
  let first1 := health_check_proxy probe1 self r1 in
  let then2 := health_check_proxy probe2 (fst first1) r2 in
  let first2 := health_check_proxy probe2 self r2 in
  let then1 := health_check_proxy probe1 (fst first2) r1 in
  (forall r, objects (fst then2) r = objects (fst then1) r)
  /\ same_partition (fst then1) (fst then2)
  /\ session (fst then2) = session (fst then1)
  /\ snd first1 = snd then1
  /\ snd first2 = snd then2.
Proof.
  intros Hne. cbv zeta.
  rewrite !health_check_result.
  split; [| split; [| split; [| split]]]; try reflexivity.
  - intros r. rewrite !health_check_objects. cbn [objects]. unfold store.
    destruct (Nat.eqb_spec r1 r2) as [E | _]; [contradiction |].
    destruct (Nat.eqb_spec r2 r1) as [E | _]; [symmetry in E; contradiction |].
    destruct (Nat.eqb_spec r r2) as [E2 | _], (Nat.eqb_spec r r1) as [E1 | _];
      [exfalso; apply Hne; congruence | reflexivity | reflexivity | reflexivity].
  - rewrite !health_check_objects. split; reflexivity.
  - now rewrite !health_check_objects.
Qed.

Lemma checks_commute_witness :
  let first1 := health_check_proxy ProbeFixture.none Fixture.fast_regions 0%nat in
  let then2 := health_check_proxy ProbeFixture.all_fast (fst first1) 1%nat in
  let first2 := health_check_proxy ProbeFixture.all_fast Fixture.fast_regions 1%nat in
  let then1 := health_check_proxy ProbeFixture.none (fst first2) 0%nat in
  objects (fst then2) 0%nat = objects (fst then1) 0%nat
  /\ objects (fst then2) 1%nat = objects (fst then1) 1%nat.
Proof.
  assert (Hne : 0%nat <> 1%nat) by discriminate.
  destruct (checks_commute ProbeFixture.none ProbeFixture.all_fast
              Fixture.fast_regions 0%nat 1%nat Hne) as [Hobj _].
  split; apply Hobj.
Defined.

(** ** Telemetry *)

Lemma dict_get_set_same {V : Type} (k : string) (v : V) (d : dict V) :
  dict_get k (dict_set k v d) = Some v.
Proof.
  induction d as [| [k' v'] d IH]; cbn [dict_set dict_get].
  - now rewrite String.eqb_refl.
  - destruct (String.eqb_spec k k') as [-> | Hne]; cbn [dict_get].
    + now rewrite String.eqb_refl.
    + destruct (String.eqb_spec k k'); [contradiction | exact IH].
Qed.

Lemma dict_get_set_other {V : Type} (k k' : string) (v : V) (d : dict V) :
  k' <> k -> dict_get k' (dict_set k v d) = dict_get k' d.
Proof.
  intros Hne. induction d as [| [k0 v0] d IH]; cbn [dict_set dict_get].
  - destruct (String.eqb_spec k' k); [contradiction | reflexivity].
  - destruct (String.eqb_spec k k0) as [-> | Hk]; cbn [dict_get].
    + destruct (String.eqb_spec k' k0); [contradiction | reflexivity].
    + destruct (String.eqb_spec k' k0); [reflexivity | exact IH].
Qed.

Lemma dict_get_absent {V : Type} (k : string) (d : dict V) :
  ~ In k (keys d) -> dict_get k d = None.
Proof.
  induction d as [| [k' v'] d IH]; intros Hn; [reflexivity |].
  cbn [dict_get]. cbn [keys map fst] in Hn.
  destruct (String.eqb_spec k k') as [-> | Hne].
  - exfalso. apply Hn. now left.
  - apply IH. intros H. apply Hn. now right.
Qed.

Lemma In_dict_get {V : Type} (k : string) (v : V) (d : dict V) :
  NoDup (keys d) -> In (k, v) d -> dict_get k d = Some v.
Proof.
  induction d as [| [k' v'] d IH]; intros Hnd Hin; [contradiction |].
  cbn [keys map fst] in Hnd. inversion Hnd as [| x l Hx Hl]; subst.
  cbn [dict_get]. destruct Hin as [Heq | Hin].
  - injection Heq as -> ->. now rewrite String.eqb_refl.
  - destruct (String.eqb_spec k k') as [-> | Hne]; [| now apply IH].
    exfalso. apply Hx. change (In (fst (k', v)) (map fst d)). now apply in_map.
Qed.

(** The statistics dict, key by key, when the keys of the registry are
    distinct. *)
Lemma stats_fold_get (self : AdvancedProxyRotator) (tag : option SchoolBlockerType)
    (d : dict (list ref)) :
  NoDup (keys d) ->
  forall (acc : dict state_stats) (st : string),
    dict_get st (fold_left (stats_step self tag) d acc)
    = match dict_get st d with
      | Some (r :: l) => Some (stats_of self tag (r :: l))
      | _ => dict_get st acc
      end.
Proof.
  induction d as [| [k bucket] d IH]; intros Hnd acc st; [reflexivity |].
  cbn [keys map fst] in Hnd. inversion Hnd as [| x l Hx Hl]; subst.
  cbn [fold_left dict_get]. rewrite (IH Hl).
  destruct (String.eqb_spec st k) as [-> | Hne].
  - rewrite (dict_get_absent k d Hx).
    unfold stats_step. cbn [fst snd].
    destruct bucket as [| r l]; [reflexivity | apply dict_get_set_same].
  - destruct (dict_get st d) as [[| r l] |]; try reflexivity;
      unfold stats_step; cbn [fst snd];
      (destruct bucket; [reflexivity | now apply dict_get_set_other]).
Qed.

(** Every entry of the statistics comes from a non-empty bucket. *)
Lemma stats_fold_origin (self : AdvancedProxyRotator) (tag : option SchoolBlockerType)
    (all : dict (list ref)) (d : dict (list ref)) :
  incl d all ->
  forall acc : dict state_stats,
    (forall st s, dict_get st acc = Some s ->
       exists bucket, In (st, bucket) all /\ bucket <> []
                      /\ s = stats_of self tag bucket) ->
    forall st s, dict_get st (fold_left (stats_step self tag) d acc) = Some s ->
      exists bucket, In (st, bucket) all /\ bucket <> []
                     /\ s = stats_of self tag bucket.
Proof.
  induction d as [| [k bucket] d IH]; intros Hincl acc Hacc; [exact Hacc |].
  cbn [fold_left]. apply IH.
  - intros x Hx. apply Hincl. now right.
  - intros st s. unfold stats_step. cbn [fst snd].
    destruct bucket as [| r l]; [apply Hacc |].
    destruct (String.eqb_spec st k) as [-> | Hne].
    + rewrite dict_get_set_same. intros H. injection H as <-.
      exists (r :: l). split; [apply Hincl; now left |]. split; [discriminate | reflexivity].
    + rewrite dict_get_set_other by assumption. apply Hacc.
Qed.

Lemma stats_entry_origin (self : AdvancedProxyRotator) (tag : option SchoolBlockerType)
    (st : string) (s : state_stats) :
  dict_get st (get_blocker_performance_stats self tag) = Some s ->
  exists bucket, In (st, bucket) (proxies_by_state self) /\ bucket <> []
                 /\ s = stats_of self tag bucket.
Proof.
  unfold get_blocker_performance_stats.
  apply stats_fold_origin; [apply incl_refl |].
  intros st' s' H. discriminate H.
Qed.

Lemma filter_length_le {A : Type} (f : A -> bool) (l : list A) :
  (List.length (filter f l) <= List.length l)%nat.
Proof.
  induction l as [| x l IH]; [apply Nat.le_refl |].
  cbn [filter]. destruct (f x); cbn [List.length]; lia.
Qed.

(** X16.  On a registry with distinct region keys the statistics have an
    entry exactly for the regions whose bucket is not empty, an empty
    bucket being skipped rather than averaged; an entry counts at least
    one endpoint and never more healthy endpoints than endpoints. *)
Theorem stats_entries (self : AdvancedProxyRotator) (tag : option SchoolBlockerType) :
  NoDup (keys (proxies_by_state self)) ->
  (forall st,
     dict_get st (get_blocker_performance_stats self tag)
     = match dict_get st (proxies_by_state self) with
       | Some (r :: l) => Some (stats_of self tag (r :: l))
       | _ => None
       end)
  /\ (forall st s,
        dict_get st (get_blocker_performance_stats self tag) = Some s ->
        (1 <= proxy_count s)%nat /\ (healthy_proxies s <= proxy_count s)%nat).
Proof.
  intros Hnd. split.
  - intros st. unfold get_blocker_performance_stats.
    rewrite (stats_fold_get self tag _ Hnd).
    destruct (dict_get st (proxies_by_state self)) as [[| r l] |]; reflexivity.
  - intros st s Hs.
    destruct (stats_entry_origin self tag st s Hs) as (bucket & _ & Hne & ->).
    unfold stats_of. cbn [proxy_count healthy_proxies].
    split; [destruct bucket; [contradiction | cbn [List.length]; lia] |].
    apply filter_length_le.
Qed.

Lemma stats_entries_witness :
  dict_get "ohio" (get_blocker_performance_stats Fixture.fast_regions (Some IBOSS))
  = Some (stats_of Fixture.fast_regions (Some IBOSS) [1%nat])
  /\ dict_get "utah" (get_blocker_performance_stats Fixture.fast_regions (Some IBOSS))
     = None.
Proof.
  assert (Hnd : NoDup (keys (proxies_by_state Fixture.fast_regions))).
  { repeat constructor; simpl; intuition discriminate. }
  destruct (stats_entries Fixture.fast_regions (Some IBOSS) Hnd) as [Hget _].
  split; rewrite Hget; reflexivity.
Defined.

Lemma sum_scores_bounds (lo hi : Q) (l : list Q) :
  Forall (fun x => lo <= x <= hi) l ->
  forall a,
    a + inject_Z (Z.of_nat (List.length l)) * lo <= fold_left Qplus l a
    /\ fold_left Qplus l a <= a + inject_Z (Z.of_nat (List.length l)) * hi.
Proof.
  induction 1 as [| x l [Hlo Hhi] _ IH]; intros a.
  - cbn [fold_left List.length Z.of_nat]. change (inject_Z 0) with 0. split; lra.
  - cbn [fold_left List.length]. destruct (IH (a + x)) as [H1 H2].
    rewrite Nat2Z.inj_succ. unfold Z.succ. rewrite inject_Z_plus.
    change (inject_Z 1) with 1.
    set (n := inject_Z (Z.of_nat (List.length l))) in *.
    setoid_replace ((n + 1) * lo) with (n * lo + lo) by ring.
    setoid_replace ((n + 1) * hi) with (n * hi + hi) by ring.
    split; lra.
Qed.

Lemma average_bounds (lo hi : Q) (l : list Q) :
  l <> [] ->
  Forall (fun x => lo <= x <= hi) l ->
  lo <= sum_scores l / inject_Z (Z.of_nat (List.length l)) <= hi.
Proof.
  intros Hne Hall.
  assert (Hn : 0 < inject_Z (Z.of_nat (List.length l))).
  { rewrite <- (Zlt_Qlt 0). destruct l; [contradiction | cbn [List.length]; lia]. }
  destruct (sum_scores_bounds lo hi l Hall 0) as [H1 H2].
  unfold sum_scores. split.
  - apply Qle_shift_div_l; [exact Hn | lra].
  - apply Qle_shift_div_r; [exact Hn | lra].
Qed.

Lemma sum_latencies_nonneg (l : list xfloat) :
  Forall (fun x => Float.leb (Finite 0) x = true) l ->
  forall a, Float.leb (Finite 0) a = true ->
            Float.leb (Finite 0) (fold_left Float.add l a) = true.
Proof.
  induction 1 as [| x l Hx _ IH]; intros a Ha; [exact Ha |].
  cbn [fold_left]. apply IH.
  destruct a as [qa |], x as [qx |]; try reflexivity.
  cbn [Float.leb Float.add] in *. apply Qle_bool_iff in Ha, Hx.
  apply Qle_bool_iff. lra.
Qed.

Lemma div_len_nonneg (x : xfloat) (n : nat) :
  Float.leb (Finite 0) x = true -> Float.leb (Finite 0) (div_len x n) = true.
Proof.
  destruct x as [q |]; [| reflexivity].
  cbn [Float.leb div_len]. intros H. apply Qle_bool_iff in H. apply Qle_bool_iff.
  unfold Qdiv. apply Qmult_le_0_compat; [exact H |].
  apply Qinv_le_0_compat. rewrite <- (Zle_Qle 0). lia.
Qed.

(** X17.  When every record has its metrics in range, every entry of the
    statistics has an average score within [0,1] and a non-negative
    average latency, under every tag. *)
Theorem stats_within_range (self : AdvancedProxyRotator)
    (tag : option SchoolBlockerType) (st : string) (s : state_stats) :
  (forall r, valid_metrics (objects self r)) ->
  dict_get st (get_blocker_performance_stats self tag) = Some s ->
  0 <= avg_blocker_score s <= 1
  /\ Float.leb (Finite 0) (avg_latency s) = true.
Proof.
  intros Hv Hs.
  destruct (stats_entry_origin self tag st s Hs) as (bucket & _ & Hne & ->).
  unfold stats_of. cbn [avg_blocker_score avg_latency]. split.
  - apply average_bounds.
    + destruct bucket; [contradiction | discriminate].
    + apply Forall_forall. intros x Hx. apply in_map_iff in Hx.
      destruct Hx as (r & <- & _). apply score_range, Hv.
  - apply div_len_nonneg, sum_latencies_nonneg; [| reflexivity].
    apply Forall_forall. intros x Hx. apply in_map_iff in Hx.
    destruct Hx as (r & <- & _). apply Hv.
Qed.

Lemma stats_within_range_witness :
  exists s,
    dict_get "texas" (get_blocker_performance_stats Fixture.fast_regions (Some IBOSS))
    = Some s
    /\ 0 <= avg_blocker_score s <= 1.
Proof.
  assert (Hv : forall r, valid_metrics (objects Fixture.fast_regions r)).
  { intros [| r]; (split; [split; discriminate | reflexivity]). }
  eexists. split; [reflexivity |].
  eapply (stats_within_range Fixture.fast_regions (Some IBOSS) "texas" _ Hv).
  reflexivity.
Defined.

Lemma sum_latencies_infinite (l : list xfloat) :
  forall a, fold_left Float.add l a = PosInf <-> a = PosInf \/ In PosInf l.
Proof.
  induction l as [| x l IH]; intros a; cbn [fold_left In].
  - tauto.
  - rewrite IH. destruct a as [qa |], x as [qx |]; cbn [Float.add];
      split; intros H; auto;
      repeat match goal with
             | H : _ \/ _ |- _ => destruct H
             end; auto; discriminate.
Qed.

(** X18.  On a registry with distinct region keys, an endpoint with an
    infinite latency makes the average latency reported for its region
    infinite; so does a probe cycle without a success on an endpoint of
    the region, whatever the latencies were before. *)
Theorem infinite_latency_poisons_average (self : AdvancedProxyRotator)
    (tag : option SchoolBlockerType) (st : string) (bucket : list ref) (r : ref) :
  NoDup (keys (proxies_by_state self)) ->
  dict_get st (proxies_by_state self) = Some bucket ->
  In r bucket ->
  (latency (objects self r) = PosInf ->
   exists s,
     dict_get st (get_blocker_performance_stats self tag) = Some s
     /\ avg_latency s = PosInf)
  /\ (forall probe,
        ProbeSpec.successes probe = [] ->
        exists s,
          dict_get st (get_blocker_performance_stats
                         (fst (health_check_proxy probe self r)) tag) = Some s
          /\ avg_latency s = PosInf).
Proof.
  intros Hnd Hget Hin.
  assert (Hgen : forall s0 : AdvancedProxyRotator,
            proxies_by_state s0 = proxies_by_state self ->
            latency (objects s0 r) = PosInf ->
            exists s, dict_get st (get_blocker_performance_stats s0 tag) = Some s
                      /\ avg_latency s = PosInf).
  { intros s0 Hp Hinf.
    exists (stats_of s0 tag bucket). split.
    - unfold get_blocker_performance_stats. rewrite Hp.
      rewrite (stats_fold_get s0 tag _ Hnd), Hget.
      destruct bucket; [contradiction | reflexivity].
    - unfold stats_of. cbn [avg_latency].
      assert (Hsum : sum_latencies (map (fun x => latency (objects s0 x)) bucket)
                     = PosInf).
      { unfold sum_latencies. apply sum_latencies_infinite. right.
        apply in_map_iff. exists r. split; assumption. }
      rewrite Hsum. reflexivity. }
  split.
  - intros Hinf. now apply Hgen.
  - intros probe Hs. apply Hgen.
    + rewrite health_check_objects. reflexivity.
    + rewrite health_check_latency, Hs. cbn [List.length Z.of_nat Z.eqb].
      now destruct (latency (objects self r)).
Qed.

Lemma infinite_latency_poisons_average_witness :
  exists s,
    dict_get "texas"
      (get_blocker_performance_stats
         (fst (health_check_proxy ProbeFixture.none Fixture.fast_regions 0%nat)) None)
    = Some s
    /\ avg_latency s = PosInf.
Proof.
  assert (Hnd : NoDup (keys (proxies_by_state Fixture.fast_regions))).
  { repeat constructor; simpl; intuition discriminate. }
  assert (Hget : dict_get "texas" (proxies_by_state Fixture.fast_regions)
                 = Some [0%nat]) by reflexivity.
  assert (Hin : In 0%nat [0%nat]) by (now left).
  destruct (infinite_latency_poisons_average Fixture.fast_regions None "texas"
              [0%nat] 0%nat Hnd Hget Hin) as [_ Hprobe].
  apply Hprobe. reflexivity.
Defined.

(** ** The freshly constructed registry *)

Lemma init_state_created (rand : string -> nat -> draws) (Q : ResidentialProxy -> Prop)
    (acc : AdvancedProxyRotator * ref) (entry : string * list string) :
  (forall st cities i, Q (create_proxy rand st cities i)) ->
  created_below Q acc -> created_below Q (init_state rand acc entry).
Proof.
  intros HQ Ha r Hin.
  destruct acc as [self next], entry as [st cities].
  unfold created_below in Ha. cbn [fst snd] in Ha.
  unfold init_state in Hin |- *.
  cbn [fst snd proxy_pool objects seq map fold_left] in Hin |- *.
  apply in_app_or in Hin. destruct Hin as [Hin | Hin].
  - destruct (Ha r Hin) as [Hlt Hq]. split; [lia |].
    unfold store.
    repeat match goal with
           | |- context [Nat.eqb ?a ?b] =>
               destruct (Nat.eqb_spec a b); [lia |]
           end.
    exact Hq.
  - cbn [In] in Hin.
    destruct Hin as [<- | [<- | [<- | [<- | [<- | []]]]]];
      (split; [lia |]); unfold store;
      repeat match goal with
             | |- context [Nat.eqb ?a ?b] =>
                 destruct (Nat.eqb_spec a b); [try lia; try apply HQ |]
             end; try lia; try apply HQ.
Qed.

Lemma init_fold_created (rand : string -> nat -> draws) (Q : ResidentialProxy -> Prop)
    (table : dict (list string)) :
  (forall st cities i, Q (create_proxy rand st cities i)) ->
  forall acc, created_below Q acc ->
              created_below Q (fold_left (init_state rand) table acc).
Proof.
  intros HQ. induction table as [| entry table IH]; intros acc Ha; [exact Ha |].
  cbn [fold_left]. apply IH. now apply init_state_created.
Qed.

Lemma init_from_created (rand : string -> nat -> draws) (Q : ResidentialProxy -> Prop)
    (table : dict (list string)) :
  (forall st cities i, Q (create_proxy rand st cities i)) ->
  forall r,
    In r (proxy_pool (fst (fold_left (init_state rand) table
                             (mkRotator (fun _ => unallocated) [] [] false, 0%nat)))) ->
    Q (objects (fst (fold_left (init_state rand) table
                       (mkRotator (fun _ => unallocated) [] [] false, 0%nat))) r).
Proof.
  intros HQ r Hin.
  assert (Ha : created_below Q (mkRotator (fun _ => unallocated) [] [] false, 0%nat))
    by (intros x []).
  exact (proj2 (init_fold_created rand Q table HQ _ Ha r Hin)).
Qed.

(** Every endpoint of the pool is one the constructor created. *)
Lemma init_pool_created (rand : string -> nat -> draws) (Q : ResidentialProxy -> Prop) :
  (forall st cities i, Q (create_proxy rand st cities i)) ->
  forall r, In r (proxy_pool (init rand)) -> Q (objects (init rand) r).
Proof.
  intros HQ. exact (init_from_created rand Q states_cities HQ).
Qed.

Lemma create_proxy_fresh (rand : string -> nat -> draws) :
  (forall st i, valid_draw (rand st i)) ->
  forall st cities i, fresh_record (create_proxy rand st cities i).
Proof.
  intros Hv st cities i. destruct (Hv st i) as (Hh & Hl & Hs).
  unfold fresh_record, create_proxy. cbn [health latency success_rate].
  split; [exact Hh |]. split; [| exact Hs].
  eexists. split; [reflexivity | exact Hl].
Qed.

Lemma fresh_record_healthy (p : ResidentialProxy) :
  fresh_record p -> healthy p = true.
Proof. intros ([H | H] & _); unfold healthy; rewrite H; reflexivity. Qed.

Lemma fresh_record_valid (p : ResidentialProxy) : fresh_record p -> valid_metrics p.
Proof.
  intros (_ & (l & Hl & Hr) & Hs). split; [split; lra |].
  rewrite Hl. cbn [Float.leb]. apply Qle_bool_iff. lra.
Qed.

Lemma init_keys_distinct (rand : string -> nat -> draws) :
  NoDup (keys (proxies_by_state (init rand))).
Proof.
  destruct (init_registry rand) as (_ & _ & -> & _).
  assert (H : nodup string_dec (keys states_cities) = keys states_cities)
    by (vm_compute; reflexivity).
  rewrite <- H. apply NoDup_nodup.
Qed.

Lemma init_bucket_of (rand : string -> nat -> draws) (r : ref) :
  In r (proxy_pool (init rand)) ->
  exists k bucket, In (k, bucket) (proxies_by_state (init rand)) /\ In r bucket.
Proof.
  intros Hin.
  assert (H : forallb (fun r => existsb (fun kv => existsb (Nat.eqb r) (snd kv))
                                        (proxies_by_state (init rand)))
                      (proxy_pool (init rand)) = true)
    by (vm_compute; reflexivity).
  rewrite forallb_forall in H. specialize (H r Hin).
  apply existsb_exists in H. destruct H as ([k bucket] & Hkv & Hex).
  apply existsb_exists in Hex. destruct Hex as (x & Hx & Heq).
  apply Nat.eqb_eq in Heq. subst x.
  exists k, bucket. split; assumption.
Qed.

Lemma init_bucket_length (rand : string -> nat -> draws) (k : string) (bucket : list ref) :
  In (k, bucket) (proxies_by_state (init rand)) -> List.length bucket = 5%nat.
Proof.
  intros Hin. destruct (init_registry rand) as (_ & _ & _ & H & _).
  rewrite forallb_forall in H. specialize (H _ Hin). now apply Nat.eqb_eq in H.
Qed.

(** X19.  Whatever the random draws, the constructor builds a partition:
    the pool holds 250 distinct endpoints, the 50 region keys are
    distinct, and every endpoint of the pool lies in exactly one bucket,
    which has five endpoints and is keyed by the endpoint's own region. *)
Theorem constructor_partition (rand : string -> nat -> draws) :
  let reg := init rand in
  NoDup (proxy_pool reg)
  /\ List.length (proxy_pool reg) = 250%nat
  /\ NoDup (keys (proxies_by_state reg))
  /\ List.length (proxies_by_state reg) = 50%nat
  /\ (forall r, In r (proxy_pool reg) ->
        exists k bucket,
          dict_get k (proxies_by_state reg) = Some bucket
          /\ In r bucket
          /\ List.length bucket = 5%nat
          /\ state (objects reg r) = k
          /\ (forall k' bucket',
                dict_get k' (proxies_by_state reg) = Some bucket' ->
                In r bucket' -> k' = k)).
Proof.
  cbv zeta.
  destruct (init_registry rand) as (_ & Hc & Hk & _ & Hp).
  split; [rewrite Hp; apply seq_NoDup |].
  split; [rewrite Hp; apply length_seq |].
  split; [apply init_keys_distinct |].
  split.
  - apply Nat.eqb_eq. vm_compute. reflexivity.
  - intros r Hin.
    destruct (init_bucket_of rand r Hin) as (k & bucket & Hkv & Hr).
    pose proof (In_dict_get k bucket _ (init_keys_distinct rand) Hkv) as Hget.
    pose proof (regions_consistent_state _ _ _ _ Hc Hget Hr) as Hst.
    exists k, bucket. repeat split; try assumption.
    + eapply init_bucket_length; eassumption.
    + intros k' bucket' Hget' Hr'.
      rewrite <- Hst. symmetry.
      eapply regions_consistent_state; eassumption.
Qed.

Lemma init_pool_member (rand : string -> nat -> draws) (r : ref) :
  (r < 250)%nat -> In r (proxy_pool (init rand)).
Proof.
  intros Hr. destruct (init_registry rand) as (_ & _ & _ & _ & ->).
  apply in_seq. lia.
Qed.

Lemma constructor_partition_witness :
  exists k bucket,
    dict_get k (proxies_by_state (init DrawFixture.steady)) = Some bucket
    /\ In 7%nat bucket
    /\ state (objects (init DrawFixture.steady) 7%nat) = k.
Proof.
  destruct (constructor_partition DrawFixture.steady) as (_ & _ & _ & _ & Hall).
  assert (Hlt : (7 < 250)%nat) by lia.
  destruct (Hall 7%nat (init_pool_member DrawFixture.steady 7%nat Hlt))
    as (k & bucket & Hget & Hr & _ & Hst & _).
  exists k, bucket. split; [exact Hget | split; [exact Hr | exact Hst]].
Defined.

Lemma init_pool_fresh (rand : string -> nat -> draws) :
  (forall st i, valid_draw (rand st i)) ->
  forall r, In r (proxy_pool (init rand)) -> fresh_record (objects (init rand) r).
Proof.
  intros Hv. apply init_pool_created. now apply create_proxy_fresh.
Qed.

Lemma init_first_endpoint (rand : string -> nat -> draws) :
  In 0%nat (proxy_pool (init rand)).
Proof.
  destruct (init_registry rand) as (_ & _ & _ & _ & ->).
  apply in_seq. lia.
Qed.

Lemma init_has_regions (rand : string -> nat -> draws) :
  keys (proxies_by_state (init rand)) <> [].
Proof.
  destruct (init_registry rand) as (_ & _ & -> & _). discriminate.
Qed.

(** X20.  A freshly constructed registry serves every request: with
    draws as the random module delivers them, every selection, whatever
    the hint, tag and ceiling, returns an endpoint classified EXCELLENT or
    GOOD, and every chain request returns a chain of the requested
    length. *)
Theorem fresh_registry_serves (rand : string -> nat -> draws) :
  (forall st i, valid_draw (rand st i)) ->
  (forall ts tag ceiling now,
     exists best,
       get_optimal_proxy (init rand) ts tag ceiling now
       = Ok (mark_used (init rand) best now, best)
       /\ (health (objects (init rand) best) = EXCELLENT
           \/ health (objects (init rand) best) = GOOD))
  /\ (forall rnd clock chain_length states tag,
        exists self' chain,
          rotate_proxy_chain rnd clock (init rand) chain_length states tag
          = Ok (self', chain)
          /\ List.length chain = Z.to_nat chain_length).
Proof.
  intros Hv.
  pose proof (init_pool_fresh rand Hv) as Hfresh.
  pose proof (init_first_endpoint rand) as H0.
  pose proof (fresh_record_healthy _ (Hfresh 0%nat H0)) as Hh0.
  destruct (init_registry rand) as (Hwf & _).
  apply registry_wf_buckets in Hwf.
  split.
  - intros ts tag ceiling now.
    pose proof (survivors_nonempty (init rand) ts ceiling 0%nat H0 Hh0) as Hne.
    destruct (selection_first_max_aux (init rand) ts tag ceiling now Hne)
      as [best Hok].
    exists best. split; [exact Hok |].
    apply get_optimal_proxy_ok in Hok. destruct Hok as [_ Hin].
    apply (survivors_in_pool _ _ _ Hwf) in Hin.
    apply (Hfresh best Hin).
  - intros rnd clock chain_length states tag.
    unfold rotate_proxy_chain.
    destruct (chain_loop_returns rnd clock states tag (init rand) 0%nat
                (Z.to_nat chain_length) H0 Hh0 (init_has_regions rand)
                0%nat (init rand) [] [] (agree_refl _))
      as (self' & chain & Hrun).
    exists self', chain. split; [exact Hrun |].
    destruct (chain_loop_hops rnd clock states tag (init rand) _ _ _ _ _ _ _
                (agree_refl _) Hrun)
      as (targets & hops & Hch & _ & Hlh & _).
    cbn [app] in Hch. now subst hops.
Qed.

Lemma valid_steady_draws : forall st i, valid_draw (DrawFixture.steady st i).
Proof.
  intros st i. unfold valid_draw, DrawFixture.steady.
  cbn [drawn_health drawn_latency drawn_success_rate].
  split; [now right |]. repeat split; discriminate.
Qed.

Lemma fresh_registry_serves_witness :
  exists best,
    get_optimal_proxy (init DrawFixture.steady) (Some "Texas"%string) (Some IBOSS)
                      (Finite 150) 42
    = Ok (mark_used (init DrawFixture.steady) best 42, best).
Proof.
  destruct (fresh_registry_serves DrawFixture.steady valid_steady_draws) as [Hsel _].
  destruct (Hsel (Some "Texas"%string) (Some IBOSS) (Finite 150) 42%Z)
    as (best & Hok & _).
  now exists best.
Defined.

Lemma fresh_score_floor (p : ResidentialProxy) (tag : option SchoolBlockerType) :
  fresh_record p ->
  0.778 <= score p tag
  /\ (_calculate_blocker_score p tag == 0.5 -> 0.828 <= score p tag).
Proof.
  intros (Hh & (l & Hl & Hr) & Hs). unfold score.
  pose proof (blocker_score_range p tag) as Hb.
  assert (Hls : 0.92 <= latency_score (latency p)).
  { rewrite Hl. cbn [latency_score].
    eapply Qle_trans; [| apply Q.le_max_r].
    unfold Qdiv.
    assert (l * / 5000 <= 400 * / 5000)
      by (apply Qmult_le_compat_r; [apply Hr | discriminate]).
    assert (400 * / 5000 == 0.08) by reflexivity.
    lra. }
  assert (Hv : 3 <= inject_Z (value (health p)))
    by (destruct Hh as [-> | ->]; discriminate).
  split; [lra | intros Hn; lra].
Qed.

Lemma filter_all {A : Type} (f : A -> bool) (l : list A) :
  (forall x, In x l -> f x = true) -> filter f l = l.
Proof.
  induction l as [| x l IH]; intros H; [reflexivity |].
  cbn [filter]. rewrite (H x) by now left.
  f_equal. apply IH. intros y Hy. apply H. now right.
Qed.

Lemma stats_entry_present (self : AdvancedProxyRotator) (tag : option SchoolBlockerType)
    (k : string) (bucket : list ref) :
  NoDup (keys (proxies_by_state self)) ->
  In (k, bucket) (proxies_by_state self) ->
  bucket <> [] ->
  dict_get k (get_blocker_performance_stats self tag) = Some (stats_of self tag bucket).
Proof.
  intros Hnd Hkv Hne.
  pose proof (In_dict_get k bucket _ Hnd Hkv) as Hget.
  unfold get_blocker_performance_stats.
  rewrite (stats_fold_get _ tag _ Hnd), Hget.
  destruct bucket as [| r l]; [contradiction | reflexivity].
Qed.

(** The statistics of a bucket of records as the constructor makes them. *)
Lemma fresh_bucket_stats (self : AdvancedProxyRotator) (tag : option SchoolBlockerType)
    (bucket : list ref) :
  bucket <> [] ->
  (forall r, In r bucket -> fresh_record (objects self r)) ->
  healthy_proxies (stats_of self tag bucket) = List.length bucket
  /\ recommendation (stats_of self tag bucket) <> "AVOID"%string
  /\ ((tag = None \/ exists t, tag = Some t /\ In t untabled_tags) ->
      recommendation (stats_of self tag bucket) = "EXCELLENT"%string).
Proof.
  intros Hne Hb. unfold stats_of.
  cbn [healthy_proxies recommendation].
  split.
  { rewrite filter_all; [reflexivity |].
    intros r Hr. apply fresh_record_healthy, Hb, Hr. }
  set (scores := map (fun r => score (objects self r) tag) bucket).
  assert (Hsn : scores <> [])
    by (subst scores; destruct bucket; [contradiction | discriminate]).
  assert (Hfloor : Forall (fun x => 0.778 <= x <= 1) scores).
  { apply Forall_forall. intros x Hx. apply in_map_iff in Hx.
    destruct Hx as (r & <- & Hr). split.
    - apply fresh_score_floor, Hb, Hr.
    - apply score_range, fresh_record_valid, Hb, Hr. }
  pose proof (average_bounds _ _ scores Hsn Hfloor) as [Havg _].
  assert (H6 : Qlt_bool 0.6 (sum_scores scores
                              / inject_Z (Z.of_nat (List.length scores))) = true)
    by (apply Qlt_bool_iff; lra).
  split.
  - rewrite H6. destruct (Qlt_bool 0.8 _); discriminate.
  - intros Hneutral.
    assert (Hhigh : Forall (fun x => 0.828 <= x <= 1) scores).
    { apply Forall_forall. intros x Hx. apply in_map_iff in Hx.
      destruct Hx as (r & <- & Hr). split.
      - apply fresh_score_floor; [apply Hb, Hr |].
        destruct Hneutral as [-> | (t & -> & Ht)]; [reflexivity |].
        cbn [untabled_tags In] in Ht.
        repeat (destruct Ht as [<- | Ht]; [reflexivity |]). contradiction.
      - apply score_range, fresh_record_valid, Hb, Hr. }
    pose proof (average_bounds _ _ scores Hsn Hhigh) as [Havg' _].
    assert (H8 : Qlt_bool 0.8 (sum_scores scores
                                / inject_Z (Z.of_nat (List.length scores))) = true)
      by (apply Qlt_bool_iff; lra).
    rewrite H8. reflexivity.
Qed.

Lemma init_keys (rand : string -> nat -> draws) (st : string) :
  In st (keys states_cities) ->
  exists bucket, In (st, bucket) (proxies_by_state (init rand)).
Proof.
  destruct (init_registry rand) as (_ & _ & Hkeys & _).
  rewrite <- Hkeys. unfold keys. intros Hin. apply in_map_iff in Hin.
  destruct Hin as ([k bucket] & Hk & Hkv). cbn [fst] in Hk. subst k.
  now exists bucket.
Qed.

(** X21.  The statistics of a freshly constructed registry, with draws as
    the random module delivers them: every one of the 50 regions has an
    entry, each entry counts five endpoints, all five healthy, and no
    region is recommended AVOID under any tag; without a tag, and under a
    tag without provider tables, every region is recommended EXCELLENT. *)
Theorem fresh_registry_statistics (rand : string -> nat -> draws)
    (tag : option SchoolBlockerType) :
  (forall st i, valid_draw (rand st i)) ->
  (forall st, In st (keys states_cities) ->
     exists s, dict_get st (get_blocker_performance_stats (init rand) tag) = Some s)
  /\ (forall st s,
        dict_get st (get_blocker_performance_stats (init rand) tag) = Some s ->
        proxy_count s = 5%nat
        /\ healthy_proxies s = 5%nat
        /\ recommendation s <> "AVOID"%string
        /\ ((tag = None \/ exists t, tag = Some t /\ In t untabled_tags) ->
            recommendation s = "EXCELLENT"%string)).
Proof.
  intros Hv.
  pose proof (init_pool_fresh rand Hv) as Hfresh.
  pose proof (registry_wf_buckets _ (proj1 (init_registry rand))) as Hwf.
  pose proof (init_keys_distinct rand) as Hnd.
  split.
  - intros st Hin.
    destruct (init_keys rand st Hin) as (bucket & Hkv).
    exists (stats_of (init rand) tag bucket).
    apply stats_entry_present; [exact Hnd | exact Hkv |].
    pose proof (init_bucket_length rand st bucket Hkv) as Hlen.
    intros E. rewrite E in Hlen. discriminate Hlen.
  - intros st s Hs.
    destruct (stats_entry_origin _ tag st s Hs) as (bucket & Hkv & Hne & E).
    pose proof (init_bucket_length rand st bucket Hkv) as Hlen.
    pose proof (In_dict_get st bucket _ Hnd Hkv) as Hget.
    assert (Hb : forall r, In r bucket -> fresh_record (objects (init rand) r)).
    { intros r Hr. apply Hfresh. exact (Hwf st bucket Hget r Hr). }
    destruct (fresh_bucket_stats (init rand) tag bucket Hne Hb) as (H1 & H2 & H3).
    rewrite E.
    split; [exact Hlen |]. split; [now rewrite H1 |]. split; assumption.
Qed.

Lemma fresh_registry_statistics_witness :
  exists s,
    dict_get "texas" (get_blocker_performance_stats (init DrawFixture.steady)
                                                    (Some IBOSS)) = Some s.
Proof.
  destruct (fresh_registry_statistics DrawFixture.steady (Some IBOSS)
              valid_steady_draws) as [Hall _].
  apply Hall. vm_compute. tauto.
Defined.
